(** * A shallow embedding of [src/ion_processing.py]

    The module defines [load_data_from_url] (fetch a remote dataset, optionally
    from inside a zip archive, and decode it with pandas, geopandas or
    rasterio) and [lat_long_to_point] (build point geometries from two
    columns and reproject them).

    Conventions of the embedding:
    - Python [str] values are Rocq [string]s of ASCII text, and Python
      [bytes] payloads are Rocq [string]s read as byte strings.
    - Python exceptions are the constructors of [exn]; a computation that can
      raise returns a [res].
    - The parsing backends (pandas, geopandas, rasterio), the HTTP transport,
      the zip decoder and the coordinate transformation are external
      collaborators: they are the fields of a [backend] record, so every
      theorem holds for every behaviour of these libraries.
    - The file system, the working directory and a trace of the observable
      calls (parser invocations, archive extraction, directory removal) form
      the [state] threaded through [load_data_from_url]. *)

From Stdlib Require Import String Ascii List Bool ZArith Lia.
From Stdlib Require QArith_base.
Import ListNotations.
Open Scope string_scope.
Open Scope list_scope.

(* ------------------------------------------------------------------ *)
(** ** Strings: [str.lower], [str.split('/')] and [os.path.splitext] *)

Module PyStr.

(** [str.lower] on ASCII text. *)
Definition lower_char (c : ascii) : ascii :=
  let n := nat_of_ascii c in
  if (65 <=? n)%nat && (n <=? 90)%nat then ascii_of_nat (n + 32)%nat else c.

Fixpoint lower (s : string) : string :=
  match s with
  | EmptyString => EmptyString
  | String c s' => String (lower_char c) (lower s')
  end.

(** [s.split('/')]: the pieces between the separators, empty ones kept. *)
Fixpoint split_path (s : string) : list string :=
  match s with
  | EmptyString => [""]
  | String c s' =>
      let r := split_path s' in
      if Ascii.eqb c "/" then "" :: r
      else match r with
           | h :: t => String c h :: t
           | [] => [String c ""]
           end
  end.

(** ['/'.join(l)] *)
Fixpoint join_path (l : list string) : string :=
  match l with
  | [] => ""
  | [x] => x
  | x :: l' => x ++ "/" ++ join_path l'
  end.

(** [p.startswith('/')] *)
Definition is_abs (p : string) : bool :=
  match p with
  | String c _ => Ascii.eqb c "/"
  | EmptyString => false
  end.

(** [p.endswith('/')] *)
Definition ends_with_sep (p : string) : bool :=
  match list_ascii_of_string p with
  | [] => false
  | l => Ascii.eqb (last l "x"%char) "/"
  end.

(** [os.path.splitext(p)[1]] on POSIX ([sep = '/'], no [altsep]).  CPython's
    [genericpath._splitext] takes the last ['.'] that comes after the last
    ['/']; the extension is the text from that dot on, provided the file name
    has a character other than ['.'] before it (so [".csv"] has no
    extension).  The scan below walks the reversed path: [ext_scan] collects
    the characters after the last dot (failing at a ['/'] or at the start),
    [stem_has_non_dot] inspects the file name before that dot. *)
Fixpoint ext_scan (acc : list ascii) (r : list ascii)
  : option (list ascii * list ascii) :=
  match r with
  | [] => None
  | c :: r' =>
      if Ascii.eqb c "." then Some (acc, r')
      else if Ascii.eqb c "/" then None
      else ext_scan (c :: acc) r'
  end.

Fixpoint stem_has_non_dot (r : list ascii) : bool :=
  match r with
  | [] => false
  | c :: r' =>
      if Ascii.eqb c "/" then false
      else if Ascii.eqb c "." then stem_has_non_dot r'
      else true
  end.

Definition splitext_ext (p : string) : string :=
  match ext_scan [] (rev (list_ascii_of_string p)) with
  | Some (e, r') =>
      if stem_has_non_dot r' then string_of_list_ascii ("."%char :: e) else ""
  | None => ""
  end.

End PyStr.

Import PyStr.

(* ------------------------------------------------------------------ *)
(** ** [detect_file_type] (the nested helper of [load_data_from_url]) *)

Inductive file_type :=
| FCsv | FTxt | FXls | FXlsx | FVector | FRaster | FUnknown.

Definition file_type_eqb (a b : file_type) : bool :=
  match a, b with
  | FCsv, FCsv | FTxt, FTxt | FXls, FXls | FXlsx, FXlsx
  | FVector, FVector | FRaster, FRaster | FUnknown, FUnknown => true
  | _, _ => false
  end.

(** [ext in [...]] *)
Definition str_in (s : string) (l : list string) : bool :=
  existsb (String.eqb s) l.

Definition detect_file_type (path : string) : file_type :=
  let ext := splitext_ext (lower path) in
  if str_in ext [".csv"] then FCsv
  else if str_in ext [".txt"] then FTxt
  else if str_in ext [".xls"] then FXls
  else if str_in ext [".xlsx"] then FXlsx
  else if str_in ext [".shp"; ".geojson"; ".gpkg"; ".json"; ".kml"] then FVector
  else if str_in ext [".tif"; ".tiff"] then FRaster
  else FUnknown.

(** The detector as the specification words it: lower-case the path, take the
    text after the final ['.'] (anywhere in the path) and map it. *)
Fixpoint spec_scan (acc : list ascii) (r : list ascii) : option (list ascii) :=
  match r with
  | [] => None
  | c :: r' => if Ascii.eqb c "." then Some acc else spec_scan (c :: acc) r'
  end.

Definition spec_tag_of_ext (e : string) : file_type :=
  if str_in e ["csv"] then FCsv
  else if str_in e ["txt"] then FTxt
  else if str_in e ["xls"] then FXls
  else if str_in e ["xlsx"] then FXlsx
  else if str_in e ["shp"; "geojson"; "gpkg"; "json"; "kml"] then FVector
  else if str_in e ["tif"; "tiff"] then FRaster
  else FUnknown.

Definition spec_detect_format (path : string) : file_type :=
  match spec_scan [] (rev (list_ascii_of_string (lower path))) with
  | Some e => spec_tag_of_ext (string_of_list_ascii e)
  | None => FUnknown
  end.

(** The paths where the two differ: the final dot of the last path component
    is preceded only by dots in that component. *)
Definition dot_only_stem (path : string) : bool :=
  match ext_scan [] (rev (list_ascii_of_string (lower path))) with
  | Some (_, r') => negb (stem_has_non_dot r')
  | None => false
  end.

(* ------------------------------------------------------------------ *)
(** ** Paths: [os.path.join], [os.path.abspath] and zip member targets *)

Module PyPath.

(** The entries [os.path.normpath] drops or folds. *)
Definition valid_comp (c : string) : bool :=
  negb (String.eqb c "" || String.eqb c "." || String.eqb c "..").

(** [os.path.normpath] on the components of an absolute path: empty and
    ["."] components vanish, [".."] removes the previous component (and is
    dropped at the root).  [stack] holds the kept components reversed. *)
Fixpoint norm_aux (stack : list string) (cs : list string) : list string :=
  match cs with
  | [] => rev stack
  | c :: cs' =>
      if String.eqb c "" || String.eqb c "." then norm_aux stack cs'
      else if String.eqb c ".." then norm_aux (tl stack) cs'
      else norm_aux (c :: stack) cs'
  end.

(** [os.path.abspath(p)] with the working directory [cwd], as the list of
    components of the absolute path the operating system opens. *)
Definition resolve (cwd : list string) (p : string) : list string :=
  norm_aux [] ((if is_abs p then [] else cwd) ++ split_path p).

(** [os.path.join(a, b)] for two arguments (posixpath.join). *)
Definition join (a b : string) : string :=
  if is_abs b then b
  else if String.eqb a "" || ends_with_sep a then a ++ b
  else a ++ "/" ++ b.

(** [ZipFile._extract_member] sanitises a member name before extracting it:
    [os.sep.join(x for x in arcname.split(os.sep) if x not in ('', '.', '..'))]. *)
Definition arcname (name : string) : string :=
  join_path (filter valid_comp (split_path name)).

(** Where [extractall(dir)] writes the member [name]:
    [os.path.normpath(os.path.join(dir, arcname))], relative to [cwd]. *)
Definition extract_target (cwd : list string) (dir name : string) : list string :=
  resolve cwd (join dir (arcname name)).

End PyPath.

Import PyPath.

(* ------------------------------------------------------------------ *)
(** ** Values, exceptions and the external libraries *)

Definition bytes := string.
(** A Python [float]: a finite value or [nan]. *)
Inductive float :=
| Fin (q : QArith_base.Q)
| NaN.

(** A pandas cell: a number or a text. *)
Inductive cell :=
| CNum (f : float)
| CText (s : string).

(** A pandas [DataFrame]: column labels and rows aligned with them. *)
Record DataFrame := mkDataFrame {
  df_columns : list string;
  df_rows : list (list cell)
}.

(** A shapely [Point(x, y)]. *)
Inductive geometry :=
| Point (x y : float).

(** A geopandas [GeoDataFrame]: the attribute table, its geometry column and
    its [crs] attribute ([None] for naive geometries). *)
Record GeoDataFrame := mkGeoDataFrame {
  gdf_data : DataFrame;
  gdf_geometry : list geometry;
  gdf_crs : option string
}.

(** A rasterio dataset handle, identified by the bytes it was opened on. *)
Record RasterHandle := mkRasterHandle { raster_bytes : bytes }.

(** An archive member as [zipfile.ZipFile] lists it: its name, its data and
    how that data comes out of the archive: readable, encrypted (the code
    passes no password), compressed with a method [zipfile] does not support,
    or failing its CRC-32 check.  For a member whose check fails, [zm_data] is
    what its stream yields before the check raises at the end. *)
Inductive zflag := ZPlain | ZEncrypted | ZUnsupported | ZBadCrc.

Record zmember := mkZMember { zm_name : string; zm_data : bytes; zm_flag : zflag }.
Definition archive := list zmember.

(** A readable member. *)
Definition mkMember (name : string) (data : bytes) : zmember :=
  mkZMember name data ZPlain.

(** What a parser reads: the [io.BytesIO] of the payload, the stream of an
    open archive member (opened under [name]; reading it to its end checks
    the CRC-32), or a file given by its absolute path. *)
Inductive source :=
| SBuffer (b : bytes)
| SMember (name : string) (m : zmember)
| SPath (p : list string).

(** What [pd.read_csv] and [pd.read_excel] return: a DataFrame or, as their
    keyword arguments ask, a [TextFileReader] over the source ([chunksize],
    [iterator]) or a dict of DataFrames by sheet ([sheet_name=None] or a
    list; the keys, names or positions, as text). *)
Inductive pandas_obj :=
| PFrame (d : DataFrame)
| PTextFileReader (src : source)
| PSheets (sheets : list (string * DataFrame)).

(** The three kinds of result [load_data_from_url] documents. *)
Inductive loaded :=
| LTable (t : pandas_obj)
| LGeo (g : GeoDataFrame)
| LRaster (r : RasterHandle).

(** The Python exceptions that can leave the two functions and the script. *)
Inductive exn :=
| HTTPError (status : Z) (url : string)   (* requests.HTTPError *)
| ValueError (msg : string)
| NameError (name : string)
| UnboundLocalError (name : string)
| NotImplementedError (msg : string)
| RuntimeError (msg : string)
| KeyError (key : string)
| BadZipFile
| OSError (msg : string)
| FileNotFoundError (path : list string)  (* ENOENT *)
| NotADirectoryError (path : list string) (* ENOTDIR *)
| IsADirectoryError (path : list string)  (* EISDIR *)
| FileExistsError (path : list string)    (* EEXIST *)
| PermissionError (path : list string)    (* EACCES *)
| LibraryError (msg : string).            (* raised inside a backend *)

Inductive res (A : Type) :=
| Ok (a : A)
| Err (e : exn).
Arguments Ok {A} a.
Arguments Err {A} e.

(** Keyword arguments forwarded to the parsers. *)
Definition opts := list (string * string).

(** The file system: regular files and directories by absolute path (the
    root [[]] is always a directory), and the entries the process may not
    write (a directory listed there accepts no new or removed entry, a file
    listed there cannot be rewritten).  The process holds no privilege that
    overrides permissions.  Symbolic links are not modelled. *)
Record filesys := mkFs {
  fs_files : list (list string * bytes);
  fs_dirs : list (list string);
  fs_ro : list (list string)
}.

(** The result of [requests.get]. *)
Record response := mkResponse {
  status_code : Z;
  resp_url : string;   (* [response.url], after redirects *)
  content : bytes
}.

Record backend := mkBackend {
  http_get : string -> response;                          (* requests.get *)
  open_zip : bytes -> option archive;                     (* zipfile.ZipFile *)
  read_csv : filesys -> source -> opts -> res pandas_obj;  (* pd.read_csv *)
  read_excel : filesys -> source -> opts -> res pandas_obj;(* pd.read_excel *)
  read_file : filesys -> source -> opts -> res GeoDataFrame; (* gpd.read_file *)
  rasterio_open : filesys -> source -> opts -> res RasterHandle;
  transform : string -> string -> geometry -> geometry;   (* pyproj, from/to *)
  as_float : cell -> option float                         (* float(...) *)
}.

(* ------------------------------------------------------------------ *)
(** ** The state and its monad *)

Inductive parser := PReadCsv | PReadExcel | PReadFile | PRasterioOpen.

Inductive event :=
| EParse (p : parser) (src : source)
| EExtract (dir : string)
| ERmtree (dir : string).

Record state := mkState {
  st_fs : filesys;
  st_cwd : list string;
  st_trace : list event
}.

Definition M (A : Type) := state -> res A * state.

Definition ret {A} (a : A) : M A := fun s => (Ok a, s).
Definition raise {A} (e : exn) : M A := fun s => (Err e, s).
Definition bind {A B} (m : M A) (k : A -> M B) : M B :=
  fun s => match m s with
           | (Ok a, s') => k a s'
           | (Err e, s') => (Err e, s')
           end.
Definition lift {A} (r : res A) : M A := fun s => (r, s).
(** [try: m  except: h] with a bare [except]. *)
Definition try_except {A} (m : M A) (h : M A) : M A :=
  fun s => match m s with
           | (Ok a, s') => (Ok a, s')
           | (Err _, s') => h s'
           end.
Definition get : M state := fun s => (Ok s, s).
Definition emit (ev : event) : M unit :=
  fun s => (Ok tt, mkState (st_fs s) (st_cwd s) (st_trace s ++ [ev])).
Definition set_fs (f : filesys) : M unit :=
  fun s => (Ok tt, mkState f (st_cwd s) (st_trace s)).

Notation "x <- m ;; k" := (bind m (fun x => k))
  (at level 61, m at next level, right associativity).
Notation "m ;;; k" := (bind m (fun _ => k))
  (at level 61, right associativity).

(** A call of a parsing backend on the current file system. *)
Definition parse {A} (p : parser) (f : filesys -> source -> opts -> res A)
  (src : source) (kw : opts) : M A :=
  emit (EParse p src) ;;;
  s <- get ;;
  lift (f (st_fs s) src kw).

(** Reading the module global [saws_crs]: [None] when the module never binds
    it, which raises [NameError] at the use. *)
Definition load_global (g : option string) (name : string) : M string :=
  match g with
  | Some v => ret v
  | None => raise (NameError name)
  end.

(* ------------------------------------------------------------------ *)
(** ** The operating system's file operations *)

Definition path_eqb (p q : list string) : bool :=
  if list_eq_dec string_dec p q then true else false.

Definition has_prefix (pre p : list string) : bool :=
  path_eqb (firstn (length pre) p) pre.

Definition dir_exists (p : list string) (f : filesys) : bool :=
  existsb (path_eqb p) (fs_dirs f).

Definition lookup_file (p : list string) (f : filesys) : option bytes :=
  match find (fun e => path_eqb (fst e) p) (fs_files f) with
  | Some (_, b) => Some b
  | None => None
  end.

Definition is_dir_at (p : list string) (f : filesys) : bool :=
  match p with
  | [] => true
  | _ => dir_exists p f
  end.

Definition is_file_at (p : list string) (f : filesys) : bool :=
  match lookup_file p f with
  | Some _ => true
  | None => false
  end.

Definition writable (p : list string) (f : filesys) : bool :=
  negb (existsb (path_eqb p) (fs_ro f)).

(** What the kernel finds at a path: a directory, a regular file, nothing,
    or an error of the walk from the root, which stops at the first ancestor
    that is missing ([ENOENT]) or is not a directory ([ENOTDIR]). *)
Inductive node := NDir | NFile | NAbsent | NErr (e : exn).

Fixpoint walk (f : filesys) (full pre rest : list string) : option exn :=
  match rest with
  | [] => None
  | [_] => None
  | c :: rest' =>
      let pre' := pre ++ [c] in
      if is_dir_at pre' f then walk f full pre' rest'
      else if is_file_at pre' f then Some (NotADirectoryError full)
      else Some (FileNotFoundError full)
  end.

Definition stat (p : list string) (f : filesys) : node :=
  match walk f p [] p with
  | Some e => NErr e
  | None => if is_dir_at p f then NDir else if is_file_at p f then NFile else NAbsent
  end.

(** [os.path.exists] and [os.path.isdir]: false when the walk fails. *)
Definition path_exists (p : list string) (f : filesys) : bool :=
  match stat p f with
  | NDir | NFile => true
  | _ => false
  end.

Definition path_isdir (p : list string) (f : filesys) : bool :=
  match stat p f with
  | NDir => true
  | _ => false
  end.

(** The file system with [p] holding [b], a new file or a rewritten one. *)
Definition write_file (p : list string) (b : bytes) (f : filesys) : filesys :=
  mkFs ((p, b) :: filter (fun e => negb (path_eqb (fst e) p)) (fs_files f))
       (fs_dirs f) (fs_ro f).

(** [os.mkdir(p)] *)
Definition os_mkdir (p : list string) : M unit :=
  s <- get ;;
  let f := st_fs s in
  match stat p f with
  | NErr e => raise e
  | NDir | NFile => raise (FileExistsError p)
  | NAbsent =>
      if writable (removelast p) f
      then set_fs (mkFs (fs_files f) (fs_dirs f ++ [p]) (fs_ro f))
      else raise (PermissionError p)
  end.

(** [open(p, 'wb')], then writing [b] *)
Definition os_write (p : list string) (b : bytes) : M unit :=
  s <- get ;;
  let f := st_fs s in
  match stat p f with
  | NErr e => raise e
  | NDir => raise (IsADirectoryError p)
  | NFile =>
      if writable p f then set_fs (write_file p b f) else raise (PermissionError p)
  | NAbsent =>
      if writable (removelast p) f then set_fs (write_file p b f)
      else raise (PermissionError p)
  end.

(** [try: m  except FileExistsError: pass] *)
Definition catch_exists (m : M unit) : M unit :=
  fun s => match m s with
           | (Err (FileExistsError _), s') => (Ok tt, s')
           | r => r
           end.

(** [os.makedirs(name)] ([exist_ok=False]) for the absolute path [rev rp] of
    a [name] relative to a directory of [stop] components, or absolute when
    [stop = 0]: [head, tail = os.path.split(name)]; when [head] is not empty
    and does not exist it is made first (ignoring [FileExistsError]), then
    [os.mkdir(name)]. *)
Fixpoint makedirs_rev (stop : nat) (rp : list string) : M unit :=
  match rp with
  | [] => os_mkdir []
  | _ :: rp' =>
      s <- get ;;
      (if Nat.ltb stop (length rp') && negb (path_exists (rev rp') (st_fs s))
       then catch_exists (makedirs_rev stop rp')
       else ret tt) ;;;
      os_mkdir (rev rp)
  end.

Definition makedirs (stop : nat) (p : list string) : M unit :=
  makedirs_rev stop (rev p).

(** The file system after [shutil.rmtree(root)] removed [root] and all it
    contains. *)
Definition rmtree_fs (root : list string) (f : filesys) : filesys :=
  mkFs (filter (fun e => negb (has_prefix root (fst e))) (fs_files f))
       (filter (fun d => negb (has_prefix root d)) (fs_dirs f))
       (filter (fun d => negb (has_prefix root d)) (fs_ro f)).

(** What [shutil.rmtree(root)] unlinks: the files and the directories below
    [root], then [root] (the walk visits the entries of a directory in the
    order [os.scandir] gives, which the model fixes as the listing order). *)
Definition rmtree_victims (root : list string) (f : filesys) : list (list string) :=
  map fst (filter (fun e => has_prefix root (fst e)) (fs_files f)) ++
  filter (fun d => has_prefix root d && negb (path_eqb d root)) (fs_dirs f) ++
  [root].

Definition remove_paths (ps : list (list string)) (f : filesys) : filesys :=
  let gone p := existsb (path_eqb p) ps in
  mkFs (filter (fun e => negb (gone (fst e))) (fs_files f))
       (filter (fun d => negb (gone d)) (fs_dirs f))
       (filter (fun d => negb (gone d)) (fs_ro f)).

(** The entries unlinked before the first one whose directory may not be
    written, and that entry. *)
Fixpoint removable_prefix (f : filesys) (vs : list (list string))
  : list (list string) * option (list string) :=
  match vs with
  | [] => ([], None)
  | v :: vs' =>
      if writable (removelast v) f
      then let (done, bad) := removable_prefix f vs' in (v :: done, bad)
      else ([], Some v)
  end.

(** [shutil.rmtree(dir)]: raises when [dir] is not a directory; stops with
    [PermissionError] at the first entry it may not unlink, the entries before
    it gone. *)
Definition rmtree (dir : string) : M unit :=
  emit (ERmtree dir) ;;;
  s <- get ;;
  let root := resolve (st_cwd s) dir in
  let f := st_fs s in
  match stat root f with
  | NErr e => raise e
  | NAbsent => raise (FileNotFoundError root)
  | NFile => raise (NotADirectoryError root)
  | NDir =>
      match removable_prefix f (rmtree_victims root f) with
      | (_, None) => set_fs (rmtree_fs root f)
      | (done, Some v) => set_fs (remove_paths done f) ;;; raise (PermissionError v)
      end
  end.

(* ------------------------------------------------------------------ *)
(** ** [zipfile] operations *)

(** [ZipFile.getinfo(name)]: the last member of that name wins. *)
Definition zip_getinfo (z : archive) (name : string) : option zmember :=
  find (fun m => String.eqb (zm_name m) name) (rev z).

(** The checks [ZipFile.open] makes on a member before it reads anything. *)
Definition open_member (m : zmember) : M unit :=
  match zm_flag m with
  | ZEncrypted =>
      raise (RuntimeError ("File " ++ zm_name m ++
                           " is encrypted, password required for extraction"))
  | ZUnsupported => raise (NotImplementedError "That compression method is not supported")
  | ZPlain | ZBadCrc => ret tt
  end.

(** Reading a member's stream to its end checks its CRC-32. *)
Definition check_crc (m : zmember) : M unit :=
  match zm_flag m with
  | ZBadCrc => raise BadZipFile
  | _ => ret tt
  end.

(** [zip_file.open(name)] *)
Definition zip_open (z : archive) (name : string) : M zmember :=
  match zip_getinfo z name with
  | Some m => open_member m ;;; ret m
  | None => raise (KeyError name)
  end.

(** [ZipFile._extract_member(m, dir)] for a directory [dir] relative to the
    working directory: [upperdirs = os.path.dirname(targetpath)] is made when
    it is not empty and does not exist; then a member whose name ends in
    ['/'] becomes a directory (unless one is there), any other is copied from
    [self.open(m)] into [open(targetpath, 'wb')]. *)
Definition extract_member (dir : string) (m : zmember) : M unit :=
  s <- get ;;
  let cwd := st_cwd s in
  let t := extract_target cwd dir (zm_name m) in
  let upperdirs := removelast t in
  (if Nat.ltb (length cwd) (length upperdirs) && negb (path_exists upperdirs (st_fs s))
   then makedirs (length cwd) upperdirs
   else ret tt) ;;;
  if ends_with_sep (zm_name m) then
    s1 <- get ;;
    (if path_isdir t (st_fs s1) then ret tt else os_mkdir t)
  else
    open_member m ;;;
    os_write t (zm_data m) ;;;
    check_crc m.

Definition extract_named (z : archive) (dir name : string) : M unit :=
  match zip_getinfo z name with
  | Some m => extract_member dir m
  | None => raise (KeyError name)
  end.

Fixpoint extract_names (z : archive) (dir : string) (names : list string) : M unit :=
  match names with
  | [] => ret tt
  | n :: ns => extract_named z dir n ;;; extract_names z dir ns
  end.

(** [zip_file.extractall(dir)]: [_extract_member] for each name of
    [namelist()] in turn; the first error stops it, what was written stays. *)
Definition extractall (z : archive) (dir : string) : M unit :=
  emit (EExtract dir) ;;;
  extract_names z dir (map zm_name z).

(* ------------------------------------------------------------------ *)
(** ** [requests] and [geopandas] pieces *)

(** [response.raise_for_status()]: raises for 4xx and 5xx only. *)
Definition raise_for_status (r : response) : M unit :=
  if ((400 <=? status_code r) && (status_code r <? 600))%Z
  then raise (HTTPError (status_code r) (resp_url r))
  else ret tt.

(** [GeoDataFrame.to_crs(target)] *)
Definition to_crs (B : backend) (target : string) (g : GeoDataFrame)
  : res GeoDataFrame :=
  match gdf_crs g with
  | None => Err (ValueError "Cannot transform naive geometries.  Please set a crs on the object first.")
  | Some from =>
      Ok (mkGeoDataFrame (gdf_data g)
            (map (transform B from target) (gdf_geometry g)) (Some target))
  end.

(* ------------------------------------------------------------------ *)
(** ** [load_data_from_url] *)

Definition scratch_dir : string := "extracted_data".
Definition msg_unsupported : string :=
  "Could not download data from this URL. Please check URL and try again.".
Definition msg_filepath : string := "Must specify 'filepath' within ZIP archive.".
Definition msg_extraction : string := "Shapefiles and rasters require extraction.".

(** [low_memory=False, **kwargs] and [engine=..., **kwargs] *)
Definition low_memory (kw : opts) : opts := ("low_memory", "False") :: kw.
Definition engine (e : string) (kw : opts) : opts := ("engine", e) :: kw.

Section Loader.

Variable B : backend.
(** The module global [saws_crs], read at each reprojection. *)
Variable saws_crs : option string.

(** [... .to_crs(saws_crs)]: the global is read after the frame is built. *)
Definition reproject (g : GeoDataFrame) : M GeoDataFrame :=
  c <- load_global saws_crs "saws_crs" ;;
  lift (to_crs B c g).

(** Lines 48-62, the [if not zipped] dispatch on the [buffer]. *)
Definition nonzipped_branch (ft : file_type) (buffer : source) (kw : opts)
  : M loaded :=
  match ft with
  | FCsv | FTxt =>
      d <- parse PReadCsv (read_csv B) buffer (low_memory kw) ;; ret (LTable d)
  | FXls =>
      d <- parse PReadExcel (read_excel B) buffer (engine "xlrd" kw) ;; ret (LTable d)
  | FXlsx =>
      d <- parse PReadExcel (read_excel B) buffer (engine "openpyxl" kw) ;; ret (LTable d)
  | FVector =>
      g <- parse PReadFile (read_file B) buffer kw ;;
      g' <- reproject g ;; ret (LGeo g')
  | FRaster =>
      r <- parse PRasterioOpen (rasterio_open B) buffer kw ;; ret (LRaster r)
  | FUnknown =>
      try_except
        (d <- parse PReadCsv (read_csv B) buffer (low_memory kw) ;; ret (LTable d))
        (raise (ValueError msg_unsupported))
  end.

(** Lines 71-79, the [try] block on the open archive member.  The local
    [data] is [None] while unbound. *)
Definition direct_block (z : archive) (fp : string) (ft : file_type) (kw : opts)
  : M (option loaded) :=
  file <- zip_open z fp ;;
  let src := SMember fp file in
  match ft with
  | FCsv =>
      d <- parse PReadCsv (read_csv B) src (low_memory kw) ;; ret (Some (LTable d))
  | FXls =>
      d <- parse PReadExcel (read_excel B) src (engine "xlrd" kw) ;;
      ret (Some (LTable d))
  | FXlsx =>
      d <- parse PReadExcel (read_excel B) src (engine "openpyxl" kw) ;;
      ret (Some (LTable d))
  | FVector | FRaster => raise (NotImplementedError msg_extraction)
  | FTxt | FUnknown => ret None
  end.

(** Lines 83-92, the dispatch of the [except] block on [full_path]; the local
    [data] is [None] while unbound. *)
Definition fallback_dispatch (ft : file_type) (full_path : source) (kw : opts)
  : M (option loaded) :=
  match ft with
  | FCsv =>
      d <- parse PReadCsv (read_csv B) full_path (low_memory kw) ;;
      ret (Some (LTable d))
  | FXls =>
      d <- parse PReadExcel (read_excel B) full_path (engine "xlrd" kw) ;;
      ret (Some (LTable d))
  | FXlsx =>
      d <- parse PReadExcel (read_excel B) full_path (engine "openpyxl" kw) ;;
      ret (Some (LTable d))
  | FVector =>
      g <- parse PReadFile (read_file B) full_path kw ;;
      g' <- reproject g ;; ret (Some (LGeo g'))
  | FRaster =>
      r <- parse PRasterioOpen (rasterio_open B) full_path kw ;;
      ret (Some (LRaster r))
  | FTxt | FUnknown => ret None
  end.

(** Lines 81-93, the [except] block: extract, load from the absolute path,
    remove the scratch directory. *)
Definition extraction_fallback (z : archive) (fp : string) (ft : file_type)
  (kw : opts) : M (option loaded) :=
  extractall z scratch_dir ;;;
  s <- get ;;
  let full_path := SPath (resolve (st_cwd s) (join scratch_dir fp)) in
  data <- fallback_dispatch ft full_path kw ;;
  rmtree scratch_dir ;;;
  ret data.

Definition load_data_from_url (url : string) (zipped : bool)
  (filepath : option string) (kw : opts) : M loaded :=
  let response := http_get B url in
  (if negb (status_code response =? 200)%Z then raise_for_status response
   else ret tt) ;;;
  if negb zipped then
    nonzipped_branch (detect_file_type url) (SBuffer (content response)) kw
  else
    z <- match open_zip B (content response) with
         | Some z => ret z
         | None => raise BadZipFile
         end ;;
    match filepath with
    | None => raise (ValueError msg_filepath)
    | Some fp =>
        let ft := detect_file_type fp in
        data <- try_except (direct_block z fp ft kw)
                           (extraction_fallback z fp ft kw) ;;
        match data with
        | Some d => ret d
        | None => raise (UnboundLocalError "data")
        end
    end.

(* ------------------------------------------------------------------ *)
(** ** [lat_long_to_point] *)

(** [df[col]] for a column label that occurs once; a missing label raises
    [KeyError].  (A repeated label selects a DataFrame, whose iteration
    yields labels that no [Point] accepts: an error as well.) *)
Definition df_column (df : DataFrame) (col : string) : res (list cell) :=
  match filter (fun ic => String.eqb (snd ic) col)
               (combine (seq 0 (length (df_columns df))) (df_columns df)) with
  | [(i, _)] => Ok (map (fun r => nth i r (CNum NaN)) (df_rows df))
  | [] => Err (KeyError col)
  | _ => Err (LibraryError "column label is not unique")
  end.

(** [Point(lon, lat)] *)
Definition make_point (lon lat : cell) : res geometry :=
  match as_float B lon, as_float B lat with
  | Some x, Some y => Ok (Point x y)
  | _, _ => Err (LibraryError "could not convert to float")
  end.

Fixpoint make_points (cs : list (cell * cell)) : res (list geometry) :=
  match cs with
  | [] => Ok []
  | (lon, lat) :: cs' =>
      match make_point lon lat with
      | Ok p => match make_points cs' with
                | Ok ps => Ok (p :: ps)
                | Err e => Err e
                end
      | Err e => Err e
      end
  end.

Definition lat_long_to_point (df : DataFrame) (lat_col long_col : string)
  : res GeoDataFrame :=
  match df_column df long_col with
  | Err e => Err e
  | Ok lons =>
      match df_column df lat_col with
      | Err e => Err e
      | Ok lats =>
          match make_points (combine lons lats) with
          | Err e => Err e
          | Ok df_geo =>
              let df' := mkGeoDataFrame df df_geo (Some "EPSG:4326") in
              match saws_crs with
              | None => Err (NameError "saws_crs")
              | Some c => to_crs B c df'
              end
          end
      end
  end.

End Loader.

(** The module never binds [saws_crs]. *)
Definition module_saws_crs : option string := None.

(* ------------------------------------------------------------------ *)
(** ** A concrete backend for the worked instances

    [demo_backend get zips] answers [requests.get] with [get], decodes the
    payloads listed in [zips] as archives, and decodes every other source
    into a one-cell table, a geometry-free frame in EPSG:4326, or a raster
    handle on its bytes; the payload ["BAD"] is not valid CSV.  Paths are
    read from the file system; the stream of a member failing its CRC check
    raises [BadZipFile]. *)

Definition source_bytes (f : filesys) (src : source) : res bytes :=
  match src with
  | SBuffer b => Ok b
  | SMember _ m => match zm_flag m with
                   | ZBadCrc => Err BadZipFile
                   | _ => Ok (zm_data m)
                   end
  | SPath p => match lookup_file p f with
               | Some b => Ok b
               | None => Err (FileNotFoundError p)
               end
  end.

Definition demo_table (b : bytes) : DataFrame := mkDataFrame ["raw"] [[CText b]].

Definition demo_csv (f : filesys) (src : source) (_ : opts) : res pandas_obj :=
  match source_bytes f src with
  | Ok b => if String.eqb b "BAD" then Err (LibraryError "ParserError")
            else Ok (PFrame (demo_table b))
  | Err e => Err e
  end.

Definition demo_vector (f : filesys) (src : source) (_ : opts) : res GeoDataFrame :=
  match source_bytes f src with
  | Ok b => Ok (mkGeoDataFrame (demo_table b) [] (Some "EPSG:4326"))
  | Err e => Err e
  end.

Definition demo_raster (f : filesys) (src : source) (_ : opts) : res RasterHandle :=
  match source_bytes f src with
  | Ok b => Ok (mkRasterHandle b)
  | Err e => Err e
  end.

Definition demo_float (c : cell) : option float :=
  match c with
  | CNum x => Some x
  | CText _ => None
  end.

Definition demo_backend (get : string -> response) (zips : list (bytes * archive))
  : backend :=
  mkBackend get
    (fun b => match find (fun e => String.eqb (fst e) b) zips with
              | Some (_, z) => Some z
              | None => None
              end)
    demo_csv demo_csv demo_vector demo_raster (fun _ _ g => g) demo_float.

(** A server answering every URL with [status] and [body]. *)
Definition serve (status : Z) (body : bytes) : string -> response :=
  fun u => mkResponse status u body.

Definition empty_state (cwd : list string) : state :=
  mkState (mkFs [] (map (fun k => firstn k cwd) (seq 1 (length cwd))) []) cwd [].

Definition work_cwd : list string := ["home"; "work"].

(** Inputs of the worked instances. *)
Definition url_zip : string := "https://example.org/archive.zip".
Definition zip_payload : bytes := "PK-ARCHIVE".

(** A server returning [zip_payload], which decodes to [members]. *)
Definition zip_backend (members : archive) : backend :=
  demo_backend (serve 200 zip_payload) [(zip_payload, members)].

(** A host with an unrelated raster at [/data/x.tif]. *)
Definition host_state : state :=
  mkState (mkFs [(["data"; "x.tif"], "OTHER")]
                [["home"]; ["home"; "work"]; ["data"]] [])
          work_cwd [].

Definition url_csv : string := "https://example.org/wells.csv".
Definition url_bin : string := "https://example.org/download?id=42".
Definition url_geojson : string := "https://example.org/wells.geojson".

(** An archive holding one raster, and the zipped load of it. *)
Definition raster_archive : archive := [mkMember "maps/x.tif" "RASTERBYTES"].
Definition raster_load : res loaded * state :=
  load_data_from_url (zip_backend raster_archive) None url_zip true
    (Some "maps/x.tif") [] (empty_state work_cwd).

(** An archive whose raster member has an absolute name, and the zipped
    load of it on [host_state]. *)
Definition abs_archive : archive := [mkMember "/data/x.tif" "EXTRACTED"].
Definition abs_load : res loaded * state :=
  load_data_from_url (zip_backend abs_archive) None url_zip true
    (Some "/data/x.tif") [] host_state.

(** An archive holding one text file. *)
Definition notes_archive : archive := [mkMember "notes.txt" "hello"].

(** A server answering every request with a GeoJSON body. *)
Definition geo_backend : backend := demo_backend (serve 200 "GEO") [].

(** One well at latitude 34, longitude -118. *)
Definition wells_df : DataFrame :=
  mkDataFrame ["lat"; "long"]
    [[CNum (Fin (QArith_base.inject_Z 34)); CNum (Fin (QArith_base.inject_Z (-118)))]].

(* ------------------------------------------------------------------ *)
(** ** The module-level script (lines 123-148)

    Importing the module downloads the Major Ions archive, prints and saves
    its first rows, and filters it twice, printing row counts.  The script
    runs over the loader's [state] and the lines it prints. *)

(** What [print] writes: a frame's repr, or a label and a count. *)
Inductive output :=
| OFrame (d : DataFrame)
| OLine (label : string) (n : Z).

Record sstate := mkSState {
  ss_st : state;
  ss_out : list output
}.

Definition SM (A : Type) := sstate -> res A * sstate.

Definition sbind {A C} (m : SM A) (k : A -> SM C) : SM C :=
  fun ss => match m ss with
            | (Ok a, ss') => k a ss'
            | (Err e, ss') => (Err e, ss')
            end.
Definition slift {A} (r : res A) : SM A := fun ss => (r, ss).
(** A loader step run inside the script. *)
Definition run_m {A} (m : M A) : SM A :=
  fun ss => match m (ss_st ss) with
            | (r, s') => (r, mkSState s' (ss_out ss))
            end.
Definition print (o : output) : SM unit :=
  fun ss => (Ok tt, mkSState (ss_st ss) (ss_out ss ++ [o])).

Notation "x <-- m ;; k" := (sbind m (fun x => k))
  (at level 61, m at next level, right associativity).

(** [DataFrame.head()]: the first five rows. *)
Definition head (df : DataFrame) : DataFrame :=
  mkDataFrame (df_columns df) (firstn 5 (df_rows df)).

(** [series OP scalar] on a column pandas read: a numeric column compares
    elementwise, [nan] comparing false; a column holding text has dtype
    [object], and comparing its strings with a number raises [TypeError].
    Floats are read as the rationals they denote. *)
Fixpoint compare_series (op : QArith_base.Q -> bool) (cs : list cell)
  : res (list bool) :=
  match cs with
  | [] => Ok []
  | CNum (Fin q) :: cs' =>
      match compare_series op cs' with
      | Ok bs => Ok (op q :: bs)
      | Err e => Err e
      end
  | CNum NaN :: cs' =>
      match compare_series op cs' with
      | Ok bs => Ok (false :: bs)
      | Err e => Err e
      end
  | CText _ :: _ => Err (LibraryError "TypeError")
  end.

(** [>= 1000] and [< 0.1] *)
Definition ge_1000 (q : QArith_base.Q) : bool :=
  QArith_base.Qle_bool (QArith_base.inject_Z 1000) q.
Definition lt_0_1 (q : QArith_base.Q) : bool :=
  negb (QArith_base.Qle_bool (QArith_base.Qmake 1%Z 10%positive) q).

(** [df[mask]] with a boolean mask aligned with the rows. *)
Fixpoint mask_rows {A} (rows : list A) (m : list bool) : list A :=
  match rows, m with
  | r :: rs, b :: bs => if b then r :: mask_rows rs bs else mask_rows rs bs
  | _, _ => []
  end.

Definition select_rows (df : DataFrame) (m : list bool) : DataFrame :=
  mkDataFrame (df_columns df) (mask_rows (df_rows df) m).

Definition data_url : string :=
  "https://www.sciencebase.gov/catalog/file/get/58937228e4b0fa1e59b73361?f=__disk__5a%2Fae%2F1a%2F5aae1aa25f84b94737628e43ef82e34f6897a63b".
Definition ions_member : string := "Major_Ions.csv".
Definition head_file : string := "data_head.csv".

Definition msg_total : string := "Number of rows in original data:".
Definition msg_filtered : string :=
  "Number of rows in filtered data (TDS >= 1000 mg/L):".
Definition msg_excluded : string := "Number of rows excluded (TDS < 1000 mg/L):".
Definition msg_filtered2 : string :=
  "Number of rows in filtered data (charge_balance_eq < 0.1):".
Definition msg_excluded2 : string :=
  "Number of rows excluded (charge_balance_eq >= 0.1):".

(** The script calls DataFrame methods on the loaded value.  The call of
    the script, a csv member read without keyword arguments, yields a
    DataFrame when it returns; the other values have no [head]. *)
Definition frame_of (v : loaded) : res DataFrame :=
  match v with
  | LTable (PFrame d) => Ok d
  | _ => Err (LibraryError "AttributeError: no attribute 'head'")
  end.

Section Script.

Variable B : backend.
Variable saws_crs : option string.
(** The text [DataFrame.to_csv(index=False)] writes. *)
Variable csv_text : DataFrame -> bytes.

(** [df.to_csv(path, index=False)]: pandas checks that the parent directory
    exists, then opens [path] for writing. *)
Definition to_csv (d : DataFrame) (path : string) : M unit :=
  s <- get ;;
  let p := resolve (st_cwd s) path in
  if path_isdir (removelast p) (st_fs s)
  then os_write p (csv_text d)
  else raise (OSError "Cannot save file into a non-existent directory").

Definition run_script : SM unit :=
  data <-- run_m (load_data_from_url B saws_crs data_url true (Some ions_member) []) ;;
  data <-- slift (frame_of data) ;;
  _ <-- print (OFrame (head data)) ;;
  _ <-- run_m (to_csv (head data) head_file) ;;
  tds <-- slift (df_column data "TDS_mgL") ;;
  m1 <-- slift (compare_series ge_1000 tds) ;;
  let filtered_data := select_rows data m1 in
  let num_rows_total := Z.of_nat (length (df_rows data)) in
  let num_rows_filtered := Z.of_nat (length (df_rows filtered_data)) in
  let num_rows_excluded := (num_rows_total - num_rows_filtered)%Z in
  _ <-- print (OLine msg_total num_rows_total) ;;
  _ <-- print (OLine msg_filtered num_rows_filtered) ;;
  _ <-- print (OLine msg_excluded num_rows_excluded) ;;
  cb <-- slift (df_column filtered_data "charge_balance_eq") ;;
  m2 <-- slift (compare_series lt_0_1 cb) ;;
  let filtered_data2 := select_rows filtered_data m2 in
  let num_rows_filtered2 := Z.of_nat (length (df_rows filtered_data2)) in
  let num_rows_excluded2 := (num_rows_filtered - num_rows_filtered2)%Z in
  _ <-- print (OLine msg_filtered2 num_rows_filtered2) ;;
  print (OLine msg_excluded2 num_rows_excluded2).

End Script.

(** Counting used to state what the script prints. *)
Definition count {A} (f : A -> bool) (l : list A) : nat := length (filter f l).

(** A cell that is a number satisfying [op] ([nan] and text never do). *)
Definition cell_test (op : QArith_base.Q -> bool) (c : cell) : bool :=
  match c with
  | CNum (Fin q) => op q
  | _ => false
  end.
Definition cell_is_nan (c : cell) : bool :=
  match c with CNum NaN => true | _ => false end.
Definition cell_is_num (c : cell) : bool :=
  match c with CNum _ => true | CText _ => false end.

(** An archive holding the Major Ions table. *)
Definition ions_archive : archive := [mkMember "Major_Ions.csv" "TDS_mgL"].

Definition q_of (n : Z) : cell := CNum (Fin (QArith_base.inject_Z n)).

(** Five samples: TDS and charge balance. *)
Definition ions_table : DataFrame :=
  mkDataFrame ["TDS_mgL"; "charge_balance_eq"]
    [[q_of 1200; CNum (Fin (QArith_base.Qmake 1%Z 20%positive))];
     [q_of 800; q_of 0];
     [CNum NaN; q_of 0];
     [q_of 1500; CNum NaN];
     [q_of 2000; CNum (Fin (QArith_base.Qmake 1%Z 5%positive))]].

(** The archive server, with a CSV reader that yields [ions_table]. *)
Definition ions_backend : backend :=
  let b := zip_backend ions_archive in
  mkBackend (http_get b) (open_zip b) (fun _ _ _ => Ok (PFrame ions_table))
    (read_excel b) (read_file b) (rasterio_open b) (transform b) (as_float b).

Definition ions_csv_text (d : DataFrame) : bytes :=
  if Nat.eqb (length (df_rows d)) 5 then "five rows" else "other".

Definition script_start : sstate := mkSState (empty_state work_cwd) [].

Definition url_txt : string := "https://example.org/notes.txt".

(* ------------------------------------------------------------------ *)
(** ** Worked instances *)

Example detect_csv : detect_file_type "https://host/Data.CSV" = FCsv.
Proof. reflexivity. Qed.
Example detect_tiff : detect_file_type "maps/elev.TIFF" = FRaster.
Proof. reflexivity. Qed.
Example detect_dir_dot : detect_file_type "a.csv/readme" = FUnknown.
Proof. reflexivity. Qed.
Example detect_hidden : detect_file_type "files/.csv" = FUnknown.
Proof. reflexivity. Qed.
Example spec_hidden : spec_detect_format "files/.csv" = FCsv.
Proof. reflexivity. Qed.


(* ------------------------------------------------------------------ *)
(** ** Format detection *)

Lemma spec_scan_suffix : forall r acc e,
  spec_scan acc r = Some e -> exists pre, e = pre ++ acc.
Proof.
  induction r as [|c r IH]; simpl; intros acc e H; [discriminate|].
  destruct (Ascii.eqb c "."); [injection H as <-; exists []; reflexivity|].
  destruct (IH _ _ H) as [pre ->]. exists (pre ++ [c]).
  rewrite <- app_assoc. reflexivity.
Qed.

Lemma ext_scan_some : forall r acc e r',
  ext_scan acc r = Some (e, r') -> spec_scan acc r = Some e.
Proof.
  induction r as [|c r IH]; simpl; intros acc e r' H; [discriminate|].
  destruct (Ascii.eqb c "."); [congruence|].
  destruct (Ascii.eqb c "/"); [discriminate|eauto].
Qed.

Lemma ext_scan_none : forall r acc,
  ext_scan acc r = None ->
  spec_scan acc r = None \/ exists e, spec_scan acc r = Some e /\ In "/"%char e.
Proof.
  induction r as [|c r IH]; simpl; intros acc H; [auto|].
  destruct (Ascii.eqb c ".") eqn:Hd; [discriminate|].
  destruct (Ascii.eqb c "/") eqn:Hs; [|auto].
  apply Ascii.eqb_eq in Hs; subst c.
  destruct (spec_scan ("/"%char :: acc) r) as [e|] eqn:E; [right|left; reflexivity].
  exists e; split; [reflexivity|].
  destruct (spec_scan_suffix _ _ _ E) as [pre ->].
  apply in_or_app; right; left; reflexivity.
Qed.

Lemma spec_tag_slash : forall e,
  In "/"%char e -> spec_tag_of_ext (string_of_list_ascii e) = FUnknown.
Proof.
  intros e H. unfold spec_tag_of_ext, str_in; simpl.
  repeat match goal with
  | |- context [String.eqb (string_of_list_ascii e) ?l] =>
      destruct (String.eqb_spec (string_of_list_ascii e) l) as [Heq|_];
      [ apply (f_equal list_ascii_of_string) in Heq;
        rewrite list_ascii_of_string_of_list_ascii in Heq; subst e;
        simpl in H; exfalso; intuition discriminate
      | simpl ]
  end.
  reflexivity.
Qed.

(** Claim C3 (as amended).  For every path, [detect_file_type] lower-cases it
    and maps the text after the final ['.'] as the specification lists
    (csv, txt, xls, xlsx; shp/geojson/gpkg/json/kml to vector; tif/tiff to
    raster; anything else, or no dot, to unknown), except that when the last
    path component has only dots before its final dot (such as [".csv"]),
    [os.path.splitext] sees no extension and the result is unknown.  The
    function is total: it raises on no input. *)
Theorem detect_file_type_spec : forall path,
  detect_file_type path =
  if dot_only_stem path then FUnknown else spec_detect_format path.
Proof.
  intros path.
  unfold detect_file_type, dot_only_stem, spec_detect_format, splitext_ext.
  destruct (ext_scan [] (rev (list_ascii_of_string (lower path))))
    as [[e r']|] eqn:E.
  - rewrite (ext_scan_some _ _ _ _ E).
    destruct (stem_has_non_dot r'); simpl; [|reflexivity].
    unfold spec_tag_of_ext, str_in; simpl. reflexivity.
  - simpl. destruct (ext_scan_none _ _ E) as [-> | [e' [-> Hs]]];
      [reflexivity|].
    symmetry. apply spec_tag_slash. exact Hs.
Qed.

(** Claim C3 (counterexample).  The claim's rule "the extension after the
    final '.'" gives csv for ["files/.csv"], the detector gives unknown. *)
Lemma detect_file_type_hidden_name :
  ~ (forall path, detect_file_type path = spec_detect_format path).
Proof.
  intros H. specialize (H "files/.csv"). vm_compute in H. discriminate.
Qed.

(* ------------------------------------------------------------------ *)
(** ** Paths under the scratch directory *)

Definition no_slash (x : string) : Prop := ~ In "/"%char (list_ascii_of_string x).

(** A working directory is a normalised absolute path. *)
Definition cwd_ok (cwd : list string) : Prop :=
  Forall (fun c => valid_comp c = true) cwd.

Lemma split_path_nonempty : forall s, split_path s <> [].
Proof.
  induction s as [|c s IH]; simpl; [discriminate|].
  destruct (Ascii.eqb c "/"); [discriminate|].
  destruct (split_path s); discriminate.
Qed.

Lemma split_noslash : forall x, no_slash x -> split_path x = [x].
Proof.
  induction x as [|c x IH]; simpl; intros H; [reflexivity|].
  destruct (Ascii.eqb c "/") eqn:E.
  - apply Ascii.eqb_eq in E; subst c. exfalso; apply H; left; reflexivity.
  - rewrite IH; [reflexivity|]. intros Hin; apply H; right; exact Hin.
Qed.

Lemma split_app_sep : forall a t,
  no_slash a -> split_path (String.append a (String "/" t)) = a :: split_path t.
Proof.
  induction a as [|c a IH]; simpl; intros t H; [reflexivity|].
  destruct (Ascii.eqb c "/") eqn:E.
  - apply Ascii.eqb_eq in E; subst c. exfalso; apply H; left; reflexivity.
  - rewrite IH; [reflexivity|]. intros Hin; apply H; right; exact Hin.
Qed.

Lemma split_comp_noslash : forall s c, In c (split_path s) -> no_slash c.
Proof.
  induction s as [|a s IH]; simpl; intros c H.
  - destruct H as [<-|[]]. unfold no_slash; simpl; auto.
  - destruct (Ascii.eqb a "/") eqn:E.
    + destruct H as [<-|H]; [unfold no_slash; simpl; auto|eauto].
    + destruct (split_path s) as [|h t] eqn:Es.
      * destruct H as [<-|[]]. unfold no_slash; simpl.
        intros [Ha|[]]. subst a. discriminate.
      * destruct H as [<-|H].
        -- unfold no_slash; simpl. intros [Ha|Hin].
           ++ subst a. discriminate.
           ++ apply (IH h); [left; reflexivity|exact Hin].
        -- apply IH. right; exact H.
Qed.

Lemma split_join : forall l,
  l <> [] -> Forall no_slash l -> split_path (join_path l) = l.
Proof.
  induction l as [|x l IH]; intros Hne Hf; [contradiction|].
  inversion Hf as [|? ? Hx Hl]; subst.
  destruct l as [|y l'].
  - simpl. apply split_noslash; exact Hx.
  - change (join_path (x :: y :: l')) with (String.append x (String "/" (join_path (y :: l')))).
    rewrite split_app_sep by exact Hx. rewrite IH; [reflexivity|discriminate|exact Hl].
Qed.

Lemma norm_no_dotdot : forall l stack,
  ~ In ".." l -> norm_aux stack l = rev stack ++ filter valid_comp l.
Proof.
  induction l as [|a l IH]; intros stack H; simpl.
  - rewrite app_nil_r; reflexivity.
  - unfold valid_comp at 1.
    destruct (String.eqb a "" || String.eqb a ".") eqn:E1; simpl.
    + apply IH. intros Hin; apply H; right; exact Hin.
    + destruct (String.eqb a "..") eqn:E2.
      * apply String.eqb_eq in E2; subst a. exfalso; apply H; left; reflexivity.
      * simpl. rewrite IH by (intros Hin; apply H; right; exact Hin).
        simpl. rewrite <- app_assoc. reflexivity.
Qed.

Lemma filter_valid_id : forall l,
  Forall (fun c => valid_comp c = true) l -> filter valid_comp l = l.
Proof.
  induction l as [|a l IH]; intros H; [reflexivity|].
  inversion H; subst. simpl. rewrite H2, IH by assumption. reflexivity.
Qed.

Lemma valid_not_dotdot : forall l,
  Forall (fun c => valid_comp c = true) l -> ~ In ".." l.
Proof.
  intros l H Hin. rewrite Forall_forall in H. specialize (H _ Hin).
  discriminate H.
Qed.

Lemma filter_valid_all : forall l,
  Forall (fun c => valid_comp c = true) (filter valid_comp l).
Proof.
  intros l. apply Forall_forall. intros x Hx.
  apply filter_In in Hx. apply Hx.
Qed.

(** [os.path.abspath(os.path.join('extracted_data', s))] for a relative [s]
    without [".."] components. *)
Lemma resolve_scratch : forall cwd s,
  cwd_ok cwd -> is_abs s = false -> ~ In ".." (split_path s) ->
  resolve cwd (join scratch_dir s) =
  cwd ++ scratch_dir :: filter valid_comp (split_path s).
Proof.
  intros cwd s Hc Ha Hd.
  unfold resolve, join. rewrite Ha. simpl.
  rewrite norm_no_dotdot.
  - simpl. rewrite filter_app, filter_valid_id by exact Hc. reflexivity.
  - intros Hin. apply in_app_or in Hin. destruct Hin as [Hin|[Hin|Hin]].
    + exact (valid_not_dotdot _ Hc Hin).
    + discriminate Hin.
    + exact (Hd Hin).
Qed.

Lemma is_abs_join_path : forall l,
  Forall (fun c => valid_comp c = true) l -> Forall no_slash l ->
  is_abs (join_path l) = false.
Proof.
  intros [|x l] Hv Hs; [reflexivity|].
  inversion Hv as [|? ? Hx _]; inversion Hs as [|? ? Hx' _]; subst.
  assert (Hfirst : is_abs (join_path (x :: l)) = is_abs x).
  { destruct x as [|c x]; [discriminate Hx|].
    destruct l; reflexivity. }
  rewrite Hfirst. destruct x as [|c x]; [discriminate Hx|]. simpl.
  destruct (Ascii.eqb c "/") eqn:E; [|reflexivity].
  apply Ascii.eqb_eq in E; subst c. exfalso; apply Hx'; left; reflexivity.
Qed.

(** Where [extractall] puts the member [fp]. *)
Lemma extract_target_scratch : forall cwd fp,
  cwd_ok cwd ->
  extract_target cwd scratch_dir fp =
  cwd ++ scratch_dir :: filter valid_comp (split_path fp).
Proof.
  intros cwd fp Hc. unfold extract_target, arcname.
  set (l := filter valid_comp (split_path fp)).
  assert (Hv : Forall (fun c => valid_comp c = true) l) by apply filter_valid_all.
  assert (Hs : Forall no_slash l).
  { apply Forall_forall. intros x Hx. apply filter_In in Hx.
    apply (split_comp_noslash fp). apply Hx. }
  destruct l as [|x l'] eqn:El.
  - rewrite resolve_scratch; [reflexivity|exact Hc|reflexivity|].
    simpl. intros [H|[]]; discriminate H.
  - rewrite <- El in *.
    rewrite resolve_scratch; [|exact Hc|apply is_abs_join_path; assumption|].
    + rewrite split_join by (try (rewrite El; discriminate); exact Hs).
      rewrite filter_valid_id by exact Hv. reflexivity.
    + rewrite split_join by (try (rewrite El; discriminate); exact Hs).
      apply valid_not_dotdot; exact Hv.
Qed.

(** Under the two conditions, the code reads the file [extractall] wrote. *)
Lemma full_path_is_extract_target : forall cwd fp,
  cwd_ok cwd -> is_abs fp = false -> ~ In ".." (split_path fp) ->
  resolve cwd (join scratch_dir fp) = extract_target cwd scratch_dir fp.
Proof.
  intros. rewrite extract_target_scratch, resolve_scratch by assumption.
  reflexivity.
Qed.

(* ------------------------------------------------------------------ *)
(** ** Runs of the loader's blocks *)

Ltac unfold_monad :=
  unfold reproject, zip_open, open_member, parse, load_global,
    try_except, bind, ret, raise, lift, get, emit, set_fs in *.

(** Split every pending backend result, every pending [match] on an
    [option] and every member flag the run depends on. *)
Ltac crunch :=
  unfold_monad; simpl in *;
  repeat (try (unfold_monad; simpl in *); match goal with
          | |- context [match ?X with Ok _ => _ | Err _ => _ end] =>
              destruct X eqn:?; simpl in *
          | |- context [match ?X with Some _ => _ | None => _ end] =>
              destruct X; simpl in *
          | |- context [match zm_flag ?m with ZPlain => _ | ZEncrypted => _
                        | ZUnsupported => _ | ZBadCrc => _ end] =>
              destruct (zm_flag m); simpl in *
          | H : context [match ?X with Ok _ => _ | Err _ => _ end] |- _ =>
              destruct X eqn:?; simpl in *
          | H : context [match ?X with Some _ => _ | None => _ end] |- _ =>
              destruct X; simpl in *
          | H : context [match zm_flag ?m with ZPlain => _ | ZEncrypted => _
                         | ZUnsupported => _ | ZBadCrc => _ end] |- _ =>
              destruct (zm_flag m); simpl in *
          end).

(** A response the status check lets through. *)
Definition passes_status (st : Z) : bool :=
  (st =? 200)%Z || negb ((400 <=? st) && (st <? 600))%Z.

Lemma status_check_passes : forall r s,
  passes_status (status_code r) = true ->
  (if negb (status_code r =? 200)%Z then raise_for_status r else ret tt) s
  = (Ok tt, s).
Proof.
  intros r s H. unfold passes_status in H.
  destruct (status_code r =? 200)%Z; simpl in *; [reflexivity|].
  unfold raise_for_status. destruct ((400 <=? status_code r) && (status_code r <? 600))%Z;
    [discriminate|reflexivity].
Qed.

(** The zipped path of [load_data_from_url] once the fetch and the archive
    decoding went through. *)
Lemma load_zipped_unfold : forall B saws url fp kw s z,
  passes_status (status_code (http_get B url)) = true ->
  open_zip B (content (http_get B url)) = Some z ->
  load_data_from_url B saws url true (Some fp) kw s =
  (data <- try_except (direct_block B z fp (detect_file_type fp) kw)
                      (extraction_fallback B saws z fp (detect_file_type fp) kw) ;;
   match data with
   | Some d => ret d
   | None => raise (UnboundLocalError "data")
   end) s.
Proof.
  intros B saws url fp kw s z Hs Hz.
  unfold load_data_from_url at 1. unfold bind at 1.
  rewrite status_check_passes by exact Hs. simpl.
  unfold bind at 1. rewrite Hz. reflexivity.
Qed.

(** The non-zipped dispatch leaves the file system and the working directory
    alone and only records parser calls on its source. *)
Lemma nonzipped_branch_state : forall B saws ft src kw s r s2,
  nonzipped_branch B saws ft src kw s = (r, s2) ->
  st_fs s2 = st_fs s /\ st_cwd s2 = st_cwd s /\
  exists new, st_trace s2 = st_trace s ++ new /\
              forall ev, In ev new -> exists p, ev = EParse p src.
Proof.
  intros B saws [] src kw [f c t] r s2 H; unfold nonzipped_branch in H; crunch;
    inversion H; subst; clear H;
    repeat split; try reflexivity;
    eexists; (split; [reflexivity|]);
    intros ev Hev; simpl in Hev;
    repeat (destruct Hev as [<-|Hev]; [eexists; reflexivity|]); contradiction.
Qed.

(** Its result depends on the state through the file system only. *)
Lemma nonzipped_branch_fs_only : forall B saws ft src kw s s',
  st_fs s = st_fs s' ->
  fst (nonzipped_branch B saws ft src kw s) =
  fst (nonzipped_branch B saws ft src kw s').
Proof.
  intros B saws [] src kw [f c t] [f' c' t'] Hf; simpl in Hf; subst f';
    unfold nonzipped_branch; crunch; reflexivity.
Qed.

(** So does the dispatch of the [except] block, which records parser calls on
    its source only. *)
Lemma fallback_dispatch_state : forall B saws ft src kw s r s2,
  fallback_dispatch B saws ft src kw s = (r, s2) ->
  st_fs s2 = st_fs s /\ st_cwd s2 = st_cwd s /\
  exists new, st_trace s2 = st_trace s ++ new /\
              forall ev, In ev new -> exists p, ev = EParse p src.
Proof.
  intros B saws [] src kw [f c t] r s2 H; unfold fallback_dispatch in H; crunch;
    inversion H; subst; clear H;
    repeat split; try reflexivity;
    try (exists []; rewrite app_nil_r; split; [reflexivity|intros ev []]);
    eexists; (split; [reflexivity|]);
    intros ev Hev; simpl in Hev;
    repeat (destruct Hev as [<-|Hev]; [eexists; reflexivity|]); contradiction.
Qed.

(** The [try] block on the archive member leaves the file system and the
    working directory alone and only records parser calls on that member. *)
Lemma direct_block_state : forall B z fp ft kw s r s1,
  direct_block B z fp ft kw s = (r, s1) ->
  st_fs s1 = st_fs s /\ st_cwd s1 = st_cwd s /\
  exists new, st_trace s1 = st_trace s ++ new /\
              forall ev, In ev new -> exists p m, ev = EParse p (SMember fp m).
Proof.
  intros B z fp [] kw [f c t] r s1 H; unfold direct_block in H; crunch;
    inversion H; subst; clear H;
    repeat split; try reflexivity;
    try (exists []; rewrite app_nil_r; split; [reflexivity|intros ev []]);
    eexists; (split; [reflexivity|]);
    intros ev Hev; simpl in Hev;
    repeat (destruct Hev as [<-|Hev]; [do 2 eexists; reflexivity|]); contradiction.
Qed.

(** For vector and raster members the [try] block always raises, without
    touching the state. *)
Lemma direct_block_vector_raster : forall B z fp ft kw s,
  ft = FVector \/ ft = FRaster ->
  exists e, direct_block B z fp ft kw s = (Err e, s).
Proof.
  intros B z fp ft kw s [-> | ->]; unfold direct_block; crunch; eauto.
Qed.

(** The [except] block in its three stages: [extractall], the dispatch on the
    extracted path, [rmtree]. *)
Lemma fallback_run : forall B saws z fp ft kw s,
  extraction_fallback B saws z fp ft kw s =
  match extractall z scratch_dir s with
  | (Err e, s1) => (Err e, s1)
  | (Ok _, s1) =>
      match fallback_dispatch B saws ft
              (SPath (resolve (st_cwd s1) (join scratch_dir fp))) kw s1 with
      | (Err e, s2) => (Err e, s2)
      | (Ok d, s2) =>
          match rmtree scratch_dir s2 with
          | (Ok _, s3) => (Ok d, s3)
          | (Err e, s3) => (Err e, s3)
          end
      end
  end.
Proof.
  intros B saws z fp ft kw s. unfold extraction_fallback, bind, get, ret.
  destruct (extractall z scratch_dir s) as [[u|e] s1]; [|reflexivity].
  destruct (fallback_dispatch B saws ft _ kw s1) as [[d|e] s2]; [|reflexivity].
  destruct (rmtree scratch_dir s2) as [[u'|e] s3]; reflexivity.
Qed.

(** The loader's zipped path when the [try] block raised: the fallback's
    outcome, with the trace of both blocks. *)
Lemma load_zipped_via_fallback : forall B saws url fp kw s z e s1,
  passes_status (status_code (http_get B url)) = true ->
  open_zip B (content (http_get B url)) = Some z ->
  direct_block B z fp (detect_file_type fp) kw s = (Err e, s1) ->
  load_data_from_url B saws url true (Some fp) kw s =
  match extraction_fallback B saws z fp (detect_file_type fp) kw s1 with
  | (Ok (Some d), s2) => (Ok d, s2)
  | (Ok None, s2) => (Err (UnboundLocalError "data"), s2)
  | (Err e', s2) => (Err e', s2)
  end.
Proof.
  intros B saws url fp kw s z e s1 Hs Hz Hd.
  rewrite load_zipped_unfold with (z := z) by assumption.
  unfold bind at 1, try_except at 1. rewrite Hd.
  destruct (extraction_fallback B saws z fp (detect_file_type fp) kw s1)
    as [[[d|]|e'] s2]; reflexivity.
Qed.

(* ------------------------------------------------------------------ *)
(** ** File operations change the file system only *)

(** A step whose only effect is on the file system. *)
Definition keeps_ctx {A} (m : M A) : Prop :=
  forall s r s', m s = (r, s') -> st_cwd s' = st_cwd s /\ st_trace s' = st_trace s.

Lemma keeps_ret : forall A (a : A), keeps_ctx (ret a).
Proof. intros A a s r s' H. injection H as _ <-. auto. Qed.

Lemma keeps_raise : forall A e, keeps_ctx (@raise A e).
Proof. intros A e s r s' H. injection H as _ <-. auto. Qed.

Lemma keeps_get : keeps_ctx get.
Proof. intros s r s' H. injection H as _ <-. auto. Qed.

Lemma keeps_set_fs : forall f, keeps_ctx (set_fs f).
Proof. intros f s r s' H. injection H as _ <-. auto. Qed.

Lemma keeps_bind : forall A C (m : M A) (k : A -> M C),
  keeps_ctx m -> (forall a, keeps_ctx (k a)) -> keeps_ctx (bind m k).
Proof.
  intros A C m k Hm Hk s r s' H. unfold bind in H.
  destruct (m s) as [[a|e] s1] eqn:E.
  - destruct (Hm _ _ _ E) as [H1 H2]. destruct (Hk a _ _ _ H) as [H3 H4].
    split; congruence.
  - injection H as _ <-. exact (Hm _ _ _ E).
Qed.

Lemma keeps_catch_exists : forall m, keeps_ctx m -> keeps_ctx (catch_exists m).
Proof.
  intros m Hm s r s' H. unfold catch_exists in H.
  destruct (m s) as [r1 s1] eqn:E. destruct (Hm _ _ _ E) as [H1 H2].
  destruct r1 as [u|e]; [|destruct e]; injection H as _ <-; auto.
Qed.

Create HintDb keeps.
#[local] Hint Resolve keeps_ret keeps_raise keeps_get keeps_set_fs : keeps.

Ltac keeps :=
  repeat (cbv beta zeta; first
    [ solve [eauto with keeps]
    | apply keeps_bind; [|intros ?]
    | apply keeps_catch_exists
    | match goal with |- keeps_ctx (match ?x with _ => _ end) => destruct x end ]).

Lemma keeps_os_mkdir : forall p, keeps_ctx (os_mkdir p).
Proof. intros p. unfold os_mkdir. keeps. Qed.

Lemma keeps_os_write : forall p b, keeps_ctx (os_write p b).
Proof. intros p b. unfold os_write. keeps. Qed.

#[local] Hint Resolve keeps_os_mkdir keeps_os_write : keeps.

Lemma keeps_makedirs : forall stop p, keeps_ctx (makedirs stop p).
Proof.
  intros stop p. unfold makedirs. generalize (rev p) as rp.
  induction rp as [|c rp IH]; simpl; keeps.
Qed.

#[local] Hint Resolve keeps_makedirs : keeps.

Lemma keeps_extract_member : forall dir m, keeps_ctx (extract_member dir m).
Proof. intros dir m. unfold extract_member, open_member, check_crc. keeps. Qed.

#[local] Hint Resolve keeps_extract_member : keeps.

Lemma keeps_extract_names : forall z dir ns, keeps_ctx (extract_names z dir ns).
Proof.
  intros z dir ns. induction ns as [|n ns IH]; simpl; unfold extract_named; keeps.
Qed.

(** [extractall] keeps the working directory and records itself. *)
Lemma extractall_ctx : forall z dir s r s',
  extractall z dir s = (r, s') ->
  st_cwd s' = st_cwd s /\ st_trace s' = st_trace s ++ [EExtract dir].
Proof.
  intros z dir s r s' H. unfold extractall, bind at 1, emit in H.
  cbv beta iota in H.
  destruct (keeps_extract_names z dir (map zm_name z) _ _ _ H) as [H1 H2].
  simpl in H1, H2. auto.
Qed.

(** The outcomes of [rmtree]. *)
Lemma rmtree_cases : forall dir s,
  rmtree dir s =
  let root := resolve (st_cwd s) dir in
  let tr := st_trace s ++ [ERmtree dir] in
  match stat root (st_fs s) with
  | NErr e => (Err e, mkState (st_fs s) (st_cwd s) tr)
  | NAbsent => (Err (FileNotFoundError root), mkState (st_fs s) (st_cwd s) tr)
  | NFile => (Err (NotADirectoryError root), mkState (st_fs s) (st_cwd s) tr)
  | NDir =>
      match removable_prefix (st_fs s) (rmtree_victims root (st_fs s)) with
      | (_, None) => (Ok tt, mkState (rmtree_fs root (st_fs s)) (st_cwd s) tr)
      | (done, Some v) =>
          (Err (PermissionError v), mkState (remove_paths done (st_fs s)) (st_cwd s) tr)
      end
  end.
Proof.
  intros dir [f c t]. unfold rmtree; unfold_monad; simpl.
  destruct (stat _ _); try reflexivity.
  destruct (removable_prefix _ _) as [done [v|]]; reflexivity.
Qed.

Lemma rmtree_ctx : forall dir s r s',
  rmtree dir s = (r, s') ->
  st_cwd s' = st_cwd s /\ st_trace s' = st_trace s ++ [ERmtree dir].
Proof.
  intros dir s r s' H. rewrite rmtree_cases in H. cbv zeta in H.
  destruct (stat _ _); try (injection H as _ <-; auto).
  destruct (removable_prefix _ _) as [done [v|]]; injection H as _ <-; auto.
Qed.

Lemma rmtree_ok : forall dir s s',
  rmtree dir s = (Ok tt, s') ->
  st_fs s' = rmtree_fs (resolve (st_cwd s) dir) (st_fs s).
Proof.
  intros dir s s' H. rewrite rmtree_cases in H. cbv zeta in H.
  destruct (stat _ _); try discriminate H.
  destruct (removable_prefix _ _) as [done [v|]]; [discriminate H|].
  injection H as <-. reflexivity.
Qed.

(** The fallback keeps the working directory. *)
Lemma fallback_cwd : forall B saws z fp ft kw s r s',
  extraction_fallback B saws z fp ft kw s = (r, s') -> st_cwd s' = st_cwd s.
Proof.
  intros B saws z fp ft kw s r s' H. rewrite fallback_run in H.
  destruct (extractall z scratch_dir s) as [[u|e] s1] eqn:Ex;
    destruct (extractall_ctx _ _ _ _ _ Ex) as [Hc1 _];
    [|injection H as _ <-; exact Hc1].
  destruct (fallback_dispatch B saws ft _ kw s1) as [[d|e] s2] eqn:Hd;
    destruct (fallback_dispatch_state _ _ _ _ _ _ _ _ Hd) as [_ [Hc2 _]];
    [|injection H as _ <-; congruence].
  destruct (rmtree scratch_dir s2) as [[u'|e] s3] eqn:Hr;
    destruct (rmtree_ctx _ _ _ _ Hr) as [Hc3 _]; injection H as _ <-; congruence.
Qed.

(* ------------------------------------------------------------------ *)
(** ** Where the fallback reads *)

(** [os.path.normpath] keeps at most the components it is given. *)
Definition count_valid (l : list string) : nat := length (filter valid_comp l).

Lemma norm_aux_length : forall cs stack,
  length (norm_aux stack cs) <= length stack + count_valid cs.
Proof.
  unfold count_valid. induction cs as [|c cs IH]; intros stack; simpl.
  - rewrite length_rev. lia.
  - unfold valid_comp at 1.
    destruct (String.eqb c "" || String.eqb c ".") eqn:E1; simpl.
    + apply IH.
    + destruct (String.eqb c "..") eqn:E2; simpl.
      * specialize (IH (tl stack)). destruct stack; simpl in *; lia.
      * specialize (IH (c :: stack)). simpl in IH. lia.
Qed.

Lemma count_valid_app : forall l r, count_valid (l ++ r) = count_valid l + count_valid r.
Proof. intros l r. unfold count_valid. rewrite filter_app, length_app. reflexivity. Qed.

Lemma count_valid_ok : forall l,
  Forall (fun c => valid_comp c = true) l -> count_valid l = length l.
Proof. intros l H. unfold count_valid. rewrite filter_valid_id by exact H. reflexivity. Qed.

Lemma split_dotdot : forall q, split_path (String.append "../" q) = ".." :: split_path q.
Proof. intros q. reflexivity. Qed.

(** [os.path.join('extracted_data', p)] drops the scratch directory for an
    absolute [p]. *)
Lemma join_scratch_abs : forall cwd fp,
  is_abs fp = true -> resolve cwd (join scratch_dir fp) = resolve [] fp.
Proof.
  intros cwd fp Ha. unfold resolve, join. rewrite Ha, Ha. reflexivity.
Qed.

(** [norm_aux] over normalised components pushes them all. *)
Lemma norm_aux_valid_app : forall l r stack,
  Forall (fun c => valid_comp c = true) l ->
  norm_aux stack (l ++ r) = norm_aux (rev l ++ stack) r.
Proof.
  induction l as [|c l IH]; intros r stack H; [reflexivity|].
  inversion H as [|? ? Hc Hl]; subst. simpl.
  unfold valid_comp in Hc.
  destruct (String.eqb c "" || String.eqb c ".") eqn:E1; [discriminate Hc|].
  destruct (String.eqb c "..") eqn:E2; [rewrite orb_true_r in Hc; discriminate Hc|].
  rewrite IH by exact Hl. rewrite <- app_assoc. reflexivity.
Qed.

(** ... and a [".."] right after the scratch directory cancels it. *)
Lemma join_scratch_dotdot : forall cwd q,
  cwd_ok cwd -> is_abs q = false ->
  resolve cwd (join scratch_dir (String.append "../" q)) = resolve cwd q.
Proof.
  intros cwd q Hc Hq. unfold resolve, join. simpl. rewrite Hq.
  rewrite !norm_aux_valid_app by exact Hc. reflexivity.
Qed.

(** The path the fallback reads differs from the one [extractall] wrote the
    member to, for an absolute inner path or one starting with ["../"]. *)
Lemma escaped_path_not_extracted : forall cwd fp,
  cwd_ok cwd ->
  (is_abs fp = true \/ exists q, fp = String.append "../" q /\ is_abs q = false) ->
  resolve cwd (join scratch_dir fp) <> extract_target cwd scratch_dir fp.
Proof.
  intros cwd fp Hc Hfp Heq.
  apply (f_equal (@length string)) in Heq.
  rewrite extract_target_scratch in Heq by exact Hc.
  rewrite length_app in Heq. simpl in Heq.
  destruct Hfp as [Ha | [q [-> Hq]]].
  - rewrite join_scratch_abs in Heq by exact Ha.
    assert (L := norm_aux_length (split_path fp) []).
    unfold resolve in Heq. rewrite Ha in Heq. simpl in Heq.
    unfold count_valid in L. simpl in L. lia.
  - rewrite join_scratch_dotdot in Heq by assumption.
    rewrite split_dotdot in Heq. simpl in Heq.
    assert (L := norm_aux_length (cwd ++ split_path q) []).
    unfold resolve in Heq. rewrite Hq in Heq.
    rewrite count_valid_app, count_valid_ok in L by exact Hc.
    unfold count_valid in L. simpl in L. lia.
Qed.

(** The events of the [except] block: [extractall], then parser calls on the
    joined path and at most an [rmtree]. *)
Lemma fallback_trace : forall B saws z fp ft kw s r s',
  extraction_fallback B saws z fp ft kw s = (r, s') ->
  exists new, st_trace s' = st_trace s ++ EExtract scratch_dir :: new /\
    forall ev, In ev new -> ev = ERmtree scratch_dir \/
      exists p, ev = EParse p (SPath (resolve (st_cwd s) (join scratch_dir fp))).
Proof.
  intros B saws z fp ft kw s r s' H. rewrite fallback_run in H.
  destruct (extractall z scratch_dir s) as [[u|e] s1] eqn:Ex;
    destruct (extractall_ctx _ _ _ _ _ Ex) as [Hc1 Ht1].
  2:{ injection H as _ <-. exists []. rewrite Ht1. split; [reflexivity|intros ev []]. }
  rewrite Hc1 in H.
  destruct (fallback_dispatch B saws ft _ kw s1) as [[d|e] s2] eqn:Hd;
    destruct (fallback_dispatch_state _ _ _ _ _ _ _ _ Hd)
      as [_ [Hc2 [new2 [Ht2 Hnew2]]]].
  2:{ injection H as _ <-. exists new2. rewrite Ht2, Ht1, <- app_assoc.
      split; [reflexivity|]. intros ev Hev. right. exact (Hnew2 ev Hev). }
  assert (Ht3 : st_trace s' = st_trace s2 ++ [ERmtree scratch_dir]).
  { destruct (rmtree scratch_dir s2) as [[u'|e] s3] eqn:Hr;
      destruct (rmtree_ctx _ _ _ _ Hr) as [_ Ht3]; injection H as _ <-; exact Ht3. }
  exists (new2 ++ [ERmtree scratch_dir]). rewrite Ht3, Ht2, Ht1.
  rewrite <- !app_assoc. split; [reflexivity|].
  intros ev Hev. apply in_app_or in Hev. destruct Hev as [Hev|[<-|[]]].
  - right. exact (Hnew2 ev Hev).
  - left. reflexivity.
Qed.

(** A fallback that returns went through all three stages. *)
Lemma fallback_ok : forall B saws z fp ft kw s d s',
  extraction_fallback B saws z fp ft kw s = (Ok d, s') ->
  exists sx s2,
    extractall z scratch_dir s = (Ok tt, sx) /\
    fallback_dispatch B saws ft (SPath (resolve (st_cwd s) (join scratch_dir fp))) kw sx
      = (Ok d, s2) /\
    rmtree scratch_dir s2 = (Ok tt, s').
Proof.
  intros B saws z fp ft kw s d s' H. rewrite fallback_run in H.
  destruct (extractall z scratch_dir s) as [[[]|e] s1] eqn:Ex; [|discriminate H].
  destruct (extractall_ctx _ _ _ _ _ Ex) as [Hc1 _]. rewrite Hc1 in H.
  destruct (fallback_dispatch B saws ft _ kw s1) as [[d'|e] s2] eqn:Hd; [|discriminate H].
  destruct (rmtree scratch_dir s2) as [[[]|e] s3] eqn:Hr; [|discriminate H].
  injection H as <- <-. exists s1, s2. auto.
Qed.

(** Claim C1 (code bug).  A vector or raster member always goes through the
    extraction fallback: the [try] block raises without touching the state,
    [extractall] unpacks the archive, and the parser then runs only on
    [full_path = os.path.abspath(os.path.join('extracted_data', filepath))],
    never on the open member.  But [extractall] stores a member under its
    sanitised name (empty, ["."] and [".."] components dropped), while
    [os.path.join] keeps the inner path as given: an absolute inner path
    replaces the scratch directory, and a leading ["../"] steps out of it.
    Then [full_path] is a host path outside the extracted tree, not the
    extracted member, and the structure the loader returns is what the parser
    makes of that host path. *)
Theorem load_zipped_inner_path_escapes :
  forall B saws url fp kw s z r s',
  cwd_ok (st_cwd s) ->
  passes_status (status_code (http_get B url)) = true ->
  open_zip B (content (http_get B url)) = Some z ->
  (detect_file_type fp = FVector \/ detect_file_type fp = FRaster) ->
  load_data_from_url B saws url true (Some fp) kw s = (r, s') ->
  let full := resolve (st_cwd s) (join scratch_dir fp) in
  (exists new, st_trace s' = st_trace s ++ EExtract scratch_dir :: new /\
     forall p src, In (EParse p src) new -> src = SPath full) /\
  (forall v, r = Ok v -> exists sx,
     extractall z scratch_dir s = (Ok tt, sx) /\
     fst (fallback_dispatch B saws (detect_file_type fp) (SPath full) kw sx)
       = Ok (Some v)) /\
  (is_abs fp = true -> full = resolve [] fp) /\
  (forall q, fp = String.append "../" q -> is_abs q = false ->
     full = resolve (st_cwd s) q) /\
  ((is_abs fp = true \/ exists q, fp = String.append "../" q /\ is_abs q = false) ->
   full <> extract_target (st_cwd s) scratch_dir fp).
Proof.
  intros B saws url fp kw s z r s' Hc Hs Hz Hvr Hload full.
  destruct (direct_block_vector_raster B z fp _ kw s Hvr) as [e Hdb].
  rewrite (load_zipped_via_fallback _ _ _ _ _ _ _ _ _ Hs Hz Hdb) in Hload.
  destruct (extraction_fallback B saws z fp (detect_file_type fp) kw s)
    as [r2 s2] eqn:Hf.
  destruct (fallback_trace _ _ _ _ _ _ _ _ _ Hf) as [new [Ht Hnew]].
  assert (Hs2 : s' = s2) by (destruct r2 as [[d|]|e']; injection Hload as _ <-; reflexivity).
  subst s2. split; [|split; [|split; [|split]]].
  - exists new. split; [exact Ht|].
    intros p src Hin. destruct (Hnew _ Hin) as [H1|[p' H1]];
      [discriminate H1|inversion H1; reflexivity].
  - intros v ->. destruct r2 as [[d|]|e']; inversion Hload; subst d.
    destruct (fallback_ok _ _ _ _ _ _ _ _ _ Hf) as [sx [s2 [Hx [Hd _]]]].
    exists sx. split; [exact Hx|]. unfold full. rewrite Hd. reflexivity.
  - apply join_scratch_abs.
  - intros q -> Hq. apply join_scratch_dotdot; assumption.
  - apply escaped_path_not_extracted. exact Hc.
Qed.

Lemma status_check_cases : forall r s,
  (if negb (status_code r =? 200)%Z then raise_for_status r else ret tt) s
  = (if passes_status (status_code r) then Ok tt
     else Err (HTTPError (status_code r) (resp_url r)), s).
Proof.
  intros r s. unfold passes_status.
  destruct (status_code r =? 200)%Z; simpl; [reflexivity|].
  unfold raise_for_status.
  destruct ((400 <=? status_code r) && (status_code r <? 600))%Z; reflexivity.
Qed.

Lemma to_crs_crs : forall B c g g',
  to_crs B c g = Ok g' -> gdf_crs g' = Some c.
Proof.
  intros B c g g' H. unfold to_crs in H.
  destruct (gdf_crs g); [injection H as <-; reflexivity|discriminate H].
Qed.

(** Claim C2.  A non-zipped load of a URL whose extension is a vector format
    that returns a structure returns a GeoDataFrame whose [crs] is the
    target CRS held by [saws_crs], whatever CRS the source was in. *)
Theorem load_vector_target_crs : forall B c url fp kw s v,
  detect_file_type url = FVector ->
  fst (load_data_from_url B (Some c) url false fp kw s) = Ok v ->
  exists g, v = LGeo g /\ gdf_crs g = Some c.
Proof.
  intros B c url fp kw s v Hft H.
  unfold load_data_from_url in H. unfold bind at 1 in H.
  rewrite status_check_cases in H.
  destruct (passes_status (status_code (http_get B url))); [|discriminate H].
  simpl in H. rewrite Hft in H.
  unfold nonzipped_branch in H. crunch; try discriminate H.
  injection H as <-. eexists; split; [reflexivity|].
  match goal with E : to_crs _ _ _ = Ok _ |- _ => exact (to_crs_crs _ _ _ _ E) end.
Qed.

(* ------------------------------------------------------------------ *)
(** ** The scratch directory *)

Lemma path_eqb_true : forall p q, path_eqb p q = true -> p = q.
Proof.
  intros p q H. unfold path_eqb in H. destruct (list_eq_dec string_dec p q);
    [assumption|discriminate H].
Qed.

Lemma has_prefix_refl : forall p, has_prefix p p = true.
Proof.
  intros p. unfold has_prefix, path_eqb. rewrite firstn_all.
  destruct (list_eq_dec string_dec p p); [reflexivity|contradiction].
Qed.

(** After [rmtree_fs root], neither [root] nor anything under it is left. *)
Lemma rmtree_fs_removed : forall root f,
  dir_exists root (rmtree_fs root f) = false /\
  forall p, has_prefix root p = true -> lookup_file p (rmtree_fs root f) = None.
Proof.
  intros root f. split.
  - unfold dir_exists. destruct (existsb _ _) eqn:E; [|reflexivity].
    apply existsb_exists in E. destruct E as [d [Hin Heq]].
    apply path_eqb_true in Heq; subst d. simpl in Hin.
    apply filter_In in Hin. destruct Hin as [_ Hn].
    rewrite has_prefix_refl in Hn. discriminate Hn.
  - intros p Hp. unfold lookup_file. simpl.
    destruct (find _ _) as [[q b]|] eqn:E; [|reflexivity].
    apply find_some in E. destruct E as [Hin Heq]. simpl in Heq.
    apply path_eqb_true in Heq; subst q.
    apply filter_In in Hin. destruct Hin as [_ Hn]. simpl in Hn.
    rewrite Hp in Hn. discriminate Hn.
Qed.

(** A fallback that returns leaves neither the scratch directory nor anything
    under it. *)
Lemma fallback_ok_removed : forall B saws z fp ft kw s d s',
  extraction_fallback B saws z fp ft kw s = (Ok d, s') ->
  let root := resolve (st_cwd s) scratch_dir in
  dir_exists root (st_fs s') = false /\
  forall p, has_prefix root p = true -> lookup_file p (st_fs s') = None.
Proof.
  intros B saws z fp ft kw s d s' H root.
  destruct (fallback_ok _ _ _ _ _ _ _ _ _ H) as [sx [s2 [Hx [Hd Hr]]]].
  destruct (extractall_ctx _ _ _ _ _ Hx) as [Hcx _].
  destruct (fallback_dispatch_state _ _ _ _ _ _ _ _ Hd) as [_ [Hc2 _]].
  rewrite (rmtree_ok _ _ _ Hr). unfold root. rewrite <- Hcx, <- Hc2.
  apply rmtree_fs_removed.
Qed.

Lemma load_zipped_ok_inv : forall B saws url fp kw s v s',
  load_data_from_url B saws url true (Some fp) kw s = (Ok v, s') ->
  passes_status (status_code (http_get B url)) = true /\
  exists z, open_zip B (content (http_get B url)) = Some z.
Proof.
  intros B saws url fp kw s v s' H.
  unfold load_data_from_url in H. unfold bind at 1 in H.
  rewrite status_check_cases in H.
  destruct (passes_status (status_code (http_get B url))); [|discriminate H].
  split; [reflexivity|]. simpl in H. unfold bind at 1 in H.
  destruct (open_zip B (content (http_get B url))) as [z|];
    [exists z; reflexivity|discriminate H].
Qed.

(** Claim C4.  When the zip extraction fallback completes, [shutil.rmtree]
    has removed the scratch directory [extracted_data] and everything under
    it, so a loader call that extracted the archive and returned a structure
    leaves no such directory behind.  Nothing is removed when an earlier
    stage raises: if [extractall] raises, the block stops with its error and
    the members it extracted so far stay on disk, with no [rmtree] recorded;
    if the parser or the reprojection raises after a complete extraction,
    the file system is the one [extractall] left and no [rmtree] runs. *)
Theorem fallback_removes_scratch_dir :
  (forall B saws z fp ft kw s r s',
     extraction_fallback B saws z fp ft kw s = (r, s') ->
     let root := resolve (st_cwd s) scratch_dir in
     (forall d, r = Ok d ->
        dir_exists root (st_fs s') = false /\
        forall p, has_prefix root p = true -> lookup_file p (st_fs s') = None) /\
     (forall e sx, extractall z scratch_dir s = (Err e, sx) ->
        r = Err e /\ s' = sx /\ st_trace sx = st_trace s ++ [EExtract scratch_dir]) /\
     (forall sx e, extractall z scratch_dir s = (Ok tt, sx) ->
        fst (fallback_dispatch B saws ft
               (SPath (resolve (st_cwd s) (join scratch_dir fp))) kw sx) = Err e ->
        r = Err e /\ st_fs s' = st_fs sx /\
        exists new, st_trace s' = st_trace s ++ EExtract scratch_dir :: new /\
                    ~ In (ERmtree scratch_dir) new)) /\
  (forall B saws url fp kw s v s' new,
     load_data_from_url B saws url true (Some fp) kw s = (Ok v, s') ->
     st_trace s' = st_trace s ++ new ->
     In (EExtract scratch_dir) new ->
     let root := resolve (st_cwd s) scratch_dir in
     dir_exists root (st_fs s') = false /\
     forall p, has_prefix root p = true -> lookup_file p (st_fs s') = None).
Proof.
  split.
  - intros B saws z fp ft kw s r s' H root.
    split; [|split].
    + intros d ->. exact (fallback_ok_removed _ _ _ _ _ _ _ _ _ H).
    + intros e sx Hx. rewrite fallback_run, Hx in H. injection H as <- <-.
      destruct (extractall_ctx _ _ _ _ _ Hx) as [_ Ht]. auto.
    + intros sx e Hx Hd. rewrite fallback_run, Hx in H.
      destruct (extractall_ctx _ _ _ _ _ Hx) as [Hcx Htx].
      rewrite <- Hcx in Hd.
      destruct (fallback_dispatch B saws ft
                  (SPath (resolve (st_cwd sx) (join scratch_dir fp))) kw sx)
        as [[d|e'] s2] eqn:Hd2;
        simpl in Hd; [discriminate Hd|injection Hd as ->].
      cbv beta iota in H. injection H as <- <-.
      destruct (fallback_dispatch_state _ _ _ _ _ _ _ _ Hd2)
        as [Hf2 [_ [new2 [Ht2 Hnew2]]]].
      split; [reflexivity|]. split; [exact Hf2|].
      exists new2. rewrite Ht2, Htx, <- app_assoc. split; [reflexivity|].
      intros Hin. destruct (Hnew2 _ Hin) as [p Hp]. discriminate Hp.
  - intros B saws url fp kw s v s' new H Ht Hin root.
    destruct (load_zipped_ok_inv _ _ _ _ _ _ _ _ H) as [Hs [z Hz]].
    destruct (direct_block B z fp (detect_file_type fp) kw s)
      as [[[d|]|e] s1] eqn:Hdb.
    + (* the member was parsed in place: nothing was extracted *)
      exfalso.
      rewrite load_zipped_unfold with (z := z) in H by assumption.
      unfold bind at 1, try_except at 1 in H. rewrite Hdb in H.
      injection H as _ <-.
      destruct (direct_block_state _ _ _ _ _ _ _ _ Hdb)
        as [_ [_ [newd [Ht1 Hnewd]]]].
      rewrite Ht1 in Ht. apply app_inv_head in Ht. subst newd.
      destruct (Hnewd _ Hin) as [p [b Hp]]. discriminate Hp.
    + rewrite load_zipped_unfold with (z := z) in H by assumption.
      unfold bind at 1, try_except at 1 in H. rewrite Hdb in H. discriminate H.
    + destruct (direct_block_state _ _ _ _ _ _ _ _ Hdb) as [_ [Hc1 _]].
      rewrite (load_zipped_via_fallback _ _ _ _ _ _ _ _ _ Hs Hz Hdb) in H.
      destruct (extraction_fallback B saws z fp (detect_file_type fp) kw s1)
        as [r2 s2] eqn:Hf.
      destruct r2 as [[d|]|e2]; inversion H; subst.
      unfold root. rewrite <- Hc1.
      exact (fallback_ok_removed _ _ _ _ _ _ _ _ _ Hf).
Qed.

(* ------------------------------------------------------------------ *)
(** ** The status check and the error paths *)

(** Claim C5 (code bug).  The guard [if response.status_code != 200] calls
    [raise_for_status()], which raises only for 4xx and 5xx: a response with
    any other status (a 3xx such as 300 or 304, or a code of 600 and above)
    passes, and the payload is parsed.  Here a CSV URL answered with any such
    status returns the parsed table. *)
Theorem load_non_error_status_parsed : forall B saws url fp kw s t,
  (status_code (http_get B url) < 400 \/ 600 <= status_code (http_get B url))%Z ->
  detect_file_type url = FCsv ->
  read_csv B (st_fs s) (SBuffer (content (http_get B url))) (low_memory kw) = Ok t ->
  load_data_from_url B saws url false fp kw s =
  (Ok (LTable t),
   mkState (st_fs s) (st_cwd s)
     (st_trace s ++ [EParse PReadCsv (SBuffer (content (http_get B url)))])).
Proof.
  intros B saws url fp kw s t Hst Hft Hr.
  unfold load_data_from_url. unfold bind at 1.
  rewrite status_check_cases.
  replace (passes_status (status_code (http_get B url))) with true.
  2:{ symmetry. unfold passes_status.
      apply orb_true_iff; right. apply negb_true_iff.
      apply andb_false_iff. destruct Hst; [left|right]; apply Z.leb_gt + apply Z.ltb_ge; lia. }
  simpl. rewrite Hft. unfold nonzipped_branch. unfold_monad; simpl.
  destruct s as [f c tr]; simpl in *. rewrite Hr. reflexivity.
Qed.

(** Claim C6 (counterexample).  The archive is decoded before [filepath] is
    checked: a zipped load without inner path whose payload is not a zip
    archive fails with [BadZipFile], not with the missing-path error. *)
Lemma load_zipped_no_path_bad_zip :
  fst (load_data_from_url (demo_backend (serve 200 "not a zip archive") [])
         None url_zip true None [] (empty_state work_cwd)) = Err BadZipFile /\
  BadZipFile <> ValueError msg_filepath.
Proof. split; [vm_compute; reflexivity|discriminate]. Qed.

(** Claim C6 (as amended).  A zipped load without inner path whose response
    passes the status check and whose payload decodes as a zip archive fails
    with the missing-path error ([ValueError] "Must specify 'filepath' within
    ZIP archive.") and returns no structure, before any parser or
    extraction runs. *)
Theorem load_zipped_missing_inner_path : forall B saws url kw s z,
  passes_status (status_code (http_get B url)) = true ->
  open_zip B (content (http_get B url)) = Some z ->
  load_data_from_url B saws url true None kw s = (Err (ValueError msg_filepath), s).
Proof.
  intros B saws url kw s z Hs Hz.
  unfold load_data_from_url. unfold bind at 1.
  rewrite status_check_cases, Hs. simpl. unfold bind at 1. rewrite Hz.
  reflexivity.
Qed.

(** Claim C7 (counterexample).  The error for an unknown format whose CSV
    fallback fails carries a fixed message that does not contain the URL. *)
Lemma load_unknown_error_without_url :
  fst (load_data_from_url (demo_backend (serve 200 "BAD") []) None url_bin
         false None [] (empty_state work_cwd)) = Err (ValueError msg_unsupported) /\
  String.index 0 url_bin msg_unsupported = None.
Proof. split; vm_compute; reflexivity. Qed.

(** Claim C7 (as amended).  A non-zipped load whose format is unknown (and
    whose response passes the status check) first parses the payload as CSV;
    it returns that table when the parse succeeds and, if and only if the
    parse fails, fails with the unsupported-format error, whose fixed
    message asks the caller to check the URL but does not include it. *)
Theorem load_unknown_csv_fallback : forall B saws url fp kw s,
  detect_file_type url = FUnknown ->
  passes_status (status_code (http_get B url)) = true ->
  load_data_from_url B saws url false fp kw s =
  (match read_csv B (st_fs s) (SBuffer (content (http_get B url))) (low_memory kw) with
   | Ok d => Ok (LTable d)
   | Err _ => Err (ValueError msg_unsupported)
   end,
   mkState (st_fs s) (st_cwd s)
     (st_trace s ++ [EParse PReadCsv (SBuffer (content (http_get B url)))])).
Proof.
  intros B saws url fp kw s Hft Hs.
  unfold load_data_from_url. unfold bind at 1.
  rewrite status_check_cases, Hs. simpl. rewrite Hft.
  unfold nonzipped_branch. unfold_monad; simpl.
  destruct s as [f c tr]; simpl.
  destruct (read_csv B f _ _); reflexivity.
Qed.

(* ------------------------------------------------------------------ *)
(** ** [lat_long_to_point] *)

Lemma nth_error_combine_some : forall {A C} (l1 : list A) (l2 : list C) i a b,
  nth_error l1 i = Some a -> nth_error l2 i = Some b ->
  nth_error (combine l1 l2) i = Some (a, b).
Proof.
  induction l1 as [|x l1 IH]; intros l2 i a b H1 H2;
    [destruct i; discriminate H1|].
  destruct l2 as [|y l2]; [destruct i; discriminate H2|].
  destruct i as [|i]; simpl in *; [congruence|eauto].
Qed.

Lemma make_points_ok : forall B cs,
  (forall lon lat, In (lon, lat) cs ->
     as_float B lon <> None /\ as_float B lat <> None) ->
  exists ps, make_points B cs = Ok ps /\ length ps = length cs /\
    forall i lon lat, nth_error cs i = Some (lon, lat) ->
      exists x y, as_float B lon = Some x /\ as_float B lat = Some y /\
                  nth_error ps i = Some (Point x y).
Proof.
  intros B. induction cs as [|[lon lat] cs IH]; intros H.
  - exists []. split; [reflexivity|]. split; [reflexivity|].
    intros [|i] ? ? Hi; discriminate Hi.
  - destruct (H lon lat (or_introl eq_refl)) as [Hx Hy].
    destruct (as_float B lon) as [x|] eqn:Ex; [|contradiction].
    destruct (as_float B lat) as [y|] eqn:Ey; [|contradiction].
    destruct IH as [ps [Hps [Hlen Hnth]]].
    { intros lo la Hin. apply H. right; exact Hin. }
    exists (Point x y :: ps). simpl. unfold make_point. rewrite Ex, Ey, Hps.
    split; [reflexivity|]. split; [simpl; congruence|].
    intros [|i] lo la Hi; simpl in Hi.
    + injection Hi as <- <-. exists x, y. auto.
    + apply Hnth. exact Hi.
Qed.

Lemma df_column_length : forall df col cs,
  df_column df col = Ok cs -> length cs = length (df_rows df).
Proof.
  intros df col cs H. unfold df_column in H.
  destruct (filter _ _) as [|[i l] [|? ?]]; try discriminate H.
  injection H as <-. apply length_map.
Qed.

(** Claim C8.  When both named columns exist and every value in them converts
    to a float, [lat_long_to_point] builds for each row the point with
    x = the longitude and y = the latitude of that row, attaches these points
    to the table under EPSG:4326, and returns that frame reprojected into the
    target CRS [saws_crs]: every point transformed from EPSG:4326 to the
    target, and [crs] set to the target. *)
Theorem lat_long_to_point_points : forall B c df lat_col long_col lons lats,
  df_column df long_col = Ok lons ->
  df_column df lat_col = Ok lats ->
  (forall x, In x lons -> as_float B x <> None) ->
  (forall x, In x lats -> as_float B x <> None) ->
  exists pts,
    length pts = length (df_rows df) /\
    (forall i lon lat, nth_error lons i = Some lon -> nth_error lats i = Some lat ->
       exists x y, as_float B lon = Some x /\ as_float B lat = Some y /\
                   nth_error pts i = Some (Point x y)) /\
    lat_long_to_point B (Some c) df lat_col long_col =
      to_crs B c (mkGeoDataFrame df pts (Some "EPSG:4326")) /\
    lat_long_to_point B (Some c) df lat_col long_col =
      Ok (mkGeoDataFrame df (map (transform B "EPSG:4326" c) pts) (Some c)).
Proof.
  intros B c df lat_col long_col lons lats Hlon Hlat Flon Flat.
  destruct (make_points_ok B (combine lons lats)) as [ps [Hps [Hlen Hnth]]].
  { intros lo la Hin. split.
    - apply Flon. exact (in_combine_l _ _ _ _ Hin).
    - apply Flat. exact (in_combine_r _ _ _ _ Hin). }
  assert (Hl1 := df_column_length _ _ _ Hlon).
  assert (Hl2 := df_column_length _ _ _ Hlat).
  exists ps. split.
  { rewrite Hlen, length_combine, Hl1, Hl2. apply Nat.min_id. }
  split.
  { intros i lon lat H1 H2. apply Hnth. apply nth_error_combine_some; assumption. }
  unfold lat_long_to_point. rewrite Hlon, Hlat, Hps.
  split; reflexivity.
Qed.

(* ------------------------------------------------------------------ *)
(** ** The unbound global [saws_crs] *)

Lemma nonzipped_no_geo : forall B ft src kw s g,
  fst (nonzipped_branch B module_saws_crs ft src kw s) <> Ok (LGeo g).
Proof.
  intros B [] src kw [f c t] g H; unfold nonzipped_branch, module_saws_crs in H;
    crunch; discriminate H.
Qed.

Lemma direct_no_geo : forall B z fp ft kw s g,
  fst (direct_block B z fp ft kw s) <> Ok (Some (LGeo g)).
Proof.
  intros B z fp [] kw [f c t] g H; unfold direct_block in H;
    crunch; discriminate H.
Qed.

Lemma dispatch_no_geo : forall B ft src kw s g,
  fst (fallback_dispatch B module_saws_crs ft src kw s) <> Ok (Some (LGeo g)).
Proof.
  intros B [] src kw [f c t] g H; unfold fallback_dispatch, module_saws_crs in H;
    crunch; discriminate H.
Qed.

Lemma fallback_no_geo : forall B z fp ft kw s g,
  fst (extraction_fallback B module_saws_crs z fp ft kw s) <> Ok (Some (LGeo g)).
Proof.
  intros B z fp ft kw s g H.
  destruct (extraction_fallback B module_saws_crs z fp ft kw s) as [r s'] eqn:Hf.
  simpl in H. subst r.
  destruct (fallback_ok _ _ _ _ _ _ _ _ _ Hf) as [sx [s2 [_ [Hd _]]]].
  apply (dispatch_no_geo B ft (SPath (resolve (st_cwd s) (join scratch_dir fp))) kw sx g).
  rewrite Hd. reflexivity.
Qed.

Lemma load_no_geo : forall B url zipped fp kw s g,
  fst (load_data_from_url B module_saws_crs url zipped fp kw s) <> Ok (LGeo g).
Proof.
  intros B url zipped fp kw s g.
  unfold load_data_from_url. unfold bind at 1.
  rewrite status_check_cases.
  destruct (passes_status (status_code (http_get B url))); simpl;
    [|discriminate].
  destruct zipped; simpl; [|apply nonzipped_no_geo].
  unfold bind at 1. destruct (open_zip B _) as [z|]; simpl; [|discriminate].
  destruct fp as [fp|]; simpl; [|discriminate].
  unfold bind at 1, try_except at 1.
  destruct (direct_block B z fp (detect_file_type fp) kw s)
    as [[[d|]|e] s1] eqn:Hd; simpl.
  - intros H. injection H as ->.
    apply (direct_no_geo B z fp (detect_file_type fp) kw s g). rewrite Hd. reflexivity.
  - discriminate.
  - destruct (extraction_fallback B module_saws_crs z fp (detect_file_type fp) kw s1)
      as [[[d|]|e'] s2] eqn:Hf; simpl; try discriminate.
    intros H. injection H as ->.
    apply (fallback_no_geo B z fp (detect_file_type fp) kw s1 g). rewrite Hf. reflexivity.
Qed.

(** Claim C9.  The module never binds [saws_crs], so each reprojection
    raises [NameError]: a non-zipped vector load whose file was read, a
    zipped vector load whose archive was extracted and whose extracted path
    was read, and a call of [lat_long_to_point] whose points were built all
    fail with it; no call of [load_data_from_url] returns a GeoDataFrame and
    no call of [lat_long_to_point] returns at all. *)
Theorem saws_crs_unbound :
  (forall B url fp kw s g,
     passes_status (status_code (http_get B url)) = true ->
     detect_file_type url = FVector ->
     read_file B (st_fs s) (SBuffer (content (http_get B url))) kw = Ok g ->
     fst (load_data_from_url B module_saws_crs url false fp kw s)
     = Err (NameError "saws_crs")) /\
  (forall B url fp kw s z sx g,
     passes_status (status_code (http_get B url)) = true ->
     open_zip B (content (http_get B url)) = Some z ->
     detect_file_type fp = FVector ->
     extractall z scratch_dir s = (Ok tt, sx) ->
     read_file B (st_fs sx)
       (SPath (resolve (st_cwd s) (join scratch_dir fp))) kw = Ok g ->
     fst (load_data_from_url B module_saws_crs url true (Some fp) kw s)
     = Err (NameError "saws_crs")) /\
  (forall B df lat_col long_col lons lats ps,
     df_column df long_col = Ok lons ->
     df_column df lat_col = Ok lats ->
     make_points B (combine lons lats) = Ok ps ->
     lat_long_to_point B module_saws_crs df lat_col long_col
     = Err (NameError "saws_crs")) /\
  (forall B url zipped fp kw s g,
     fst (load_data_from_url B module_saws_crs url zipped fp kw s) <> Ok (LGeo g)) /\
  (forall B df lat_col long_col g,
     lat_long_to_point B module_saws_crs df lat_col long_col <> Ok g).
Proof.
  split; [|split; [|split; [|split]]].
  - intros B url fp kw s g Hs Hft Hr.
    unfold load_data_from_url. unfold bind at 1.
    rewrite status_check_cases, Hs. simpl. rewrite Hft.
    unfold nonzipped_branch, module_saws_crs. unfold_monad.
    destruct s as [f c t]; simpl in *. rewrite Hr. reflexivity.
  - intros B url fp kw s z sx g Hs Hz Hft Hx Hr.
    destruct (direct_block_vector_raster B z fp (detect_file_type fp) kw s
                (or_introl Hft)) as [e He].
    rewrite (load_zipped_via_fallback _ _ _ _ _ _ _ _ _ Hs Hz He).
    rewrite fallback_run, Hx.
    destruct (extractall_ctx _ _ _ _ _ Hx) as [Hcx _]. rewrite Hcx, Hft.
    unfold fallback_dispatch, module_saws_crs. unfold_monad.
    destruct sx as [f c t]; simpl in *. rewrite Hr. reflexivity.
  - intros B df lat_col long_col lons lats ps H1 H2 H3.
    unfold lat_long_to_point, module_saws_crs. rewrite H1, H2, H3. reflexivity.
  - exact load_no_geo.
  - intros B df lat_col long_col g.
    unfold lat_long_to_point, module_saws_crs.
    destruct (df_column df long_col); [|discriminate].
    destruct (df_column df lat_col); [|discriminate].
    destruct (make_points B _); discriminate.
Qed.

(* ------------------------------------------------------------------ *)
(** ** Zipped txt and unknown members *)

(** The [try] block on a txt or unknown member: the outcome of opening it,
    and no assignment. *)
Lemma direct_block_txt_unknown : forall B z fp ft kw s,
  ft = FTxt \/ ft = FUnknown ->
  direct_block B z fp ft kw s =
  match zip_open z fp s with
  | (Ok _, s1) => (Ok None, s1)
  | (Err e, s1) => (Err e, s1)
  end.
Proof.
  intros B z fp ft kw s Hft. unfold direct_block, bind at 1.
  destruct (zip_open z fp s) as [[m|e] s1]; [|reflexivity].
  destruct Hft as [-> | ->]; reflexivity.
Qed.

(** Claim C10 (counterexample).  An empty archive and no scratch directory
    from an earlier run: the fallback extracts nothing, and [rmtree] raises
    [FileNotFoundError] before the [return data] line is reached. *)
Lemma load_zipped_txt_empty_archive :
  fst (load_data_from_url (zip_backend []) None url_zip true (Some "notes.txt")
         [] (empty_state work_cwd))
  = Err (FileNotFoundError ["home"; "work"; "extracted_data"]).
Proof. vm_compute. reflexivity. Qed.

(** Claim C10 (as amended).  For a zipped load whose inner path maps to txt
    or unknown, no branch assigns [data].  When the member opens, the [try]
    block raises nothing, the fallback is skipped and the function fails at
    [return data] with [UnboundLocalError].  When it does not open, the
    fallback runs: if [extractall] raises, the function fails with that
    error; otherwise no parser runs and [rmtree] is called, and the function
    fails with [UnboundLocalError] if [rmtree] succeeds and with [rmtree]'s
    own error (such as [FileNotFoundError] when nothing was extracted)
    otherwise. *)
Theorem load_zipped_txt_unknown_unbound : forall B saws url fp kw s z,
  passes_status (status_code (http_get B url)) = true ->
  open_zip B (content (http_get B url)) = Some z ->
  detect_file_type fp = FTxt \/ detect_file_type fp = FUnknown ->
  (forall m, zip_open z fp s = (Ok m, s) ->
   load_data_from_url B saws url true (Some fp) kw s
   = (Err (UnboundLocalError "data"), s)) /\
  (forall e, zip_open z fp s = (Err e, s) ->
   (forall e' sx, extractall z scratch_dir s = (Err e', sx) ->
      load_data_from_url B saws url true (Some fp) kw s = (Err e', sx)) /\
   (forall sx, extractall z scratch_dir s = (Ok tt, sx) ->
      load_data_from_url B saws url true (Some fp) kw s
      = match rmtree scratch_dir sx with
        | (Ok _, s3) => (Err (UnboundLocalError "data"), s3)
        | (Err e', s3) => (Err e', s3)
        end)).
Proof.
  intros B saws url fp kw s z Hs Hz Hft. split.
  - intros m Hm. rewrite load_zipped_unfold with (z := z) by assumption.
    unfold bind at 1, try_except at 1.
    rewrite direct_block_txt_unknown, Hm by exact Hft. reflexivity.
  - intros e Hm.
    assert (Hd : direct_block B z fp (detect_file_type fp) kw s = (Err e, s)).
    { rewrite direct_block_txt_unknown, Hm by exact Hft. reflexivity. }
    rewrite (load_zipped_via_fallback _ _ _ _ _ _ _ _ _ Hs Hz Hd).
    rewrite fallback_run. split.
    + intros e' sx Hx. rewrite Hx. reflexivity.
    + intros sx Hx. rewrite Hx.
      assert (Hdisp : forall src, fallback_dispatch B saws (detect_file_type fp) src kw sx
                                  = (Ok None, sx))
        by (intros src; destruct Hft as [-> | ->]; reflexivity).
      rewrite Hdisp.
      destruct (rmtree scratch_dir sx) as [[[]|e'] s3]; reflexivity.
Qed.

(* ------------------------------------------------------------------ *)
(** ** Instances of the theorems *)

Lemma load_zipped_inner_path_escapes_witness :
  fst abs_load = Ok (LRaster (mkRasterHandle "OTHER")) /\
  resolve work_cwd (join scratch_dir "/data/x.tif") = ["data"; "x.tif"] /\
  resolve work_cwd (join scratch_dir "/data/x.tif")
    <> extract_target work_cwd scratch_dir "/data/x.tif".
Proof.
  destruct (load_zipped_inner_path_escapes (zip_backend abs_archive) None
              url_zip "/data/x.tif" [] host_state abs_archive
              (fst abs_load) (snd abs_load)
              ltac:(repeat constructor)
              ltac:(reflexivity) ltac:(reflexivity)
              ltac:(right; vm_compute; reflexivity)
              ltac:(apply surjective_pairing))
    as [_ [_ [Habs [_ Hne]]]].
  split; [vm_compute; reflexivity|]. split.
  - simpl st_cwd in Habs. rewrite Habs by reflexivity. vm_compute. reflexivity.
  - apply Hne. left. reflexivity.
Defined.

Lemma load_vector_target_crs_witness :
  exists g, LGeo (mkGeoDataFrame (demo_table "GEO") [] (Some "EPSG:3857")) = LGeo g
            /\ gdf_crs g = Some "EPSG:3857".
Proof.
  apply (load_vector_target_crs geo_backend "EPSG:3857" url_geojson None []
           (empty_state work_cwd)); vm_compute; reflexivity.
Defined.

Lemma fallback_removes_scratch_dir_witness :
  dir_exists ["home"; "work"; "extracted_data"] (st_fs (snd raster_load)) = false.
Proof.
  apply (proj2 fallback_removes_scratch_dir (zip_backend raster_archive) None
           url_zip "maps/x.tif" [] (empty_state work_cwd)
           (LRaster (mkRasterHandle "RASTERBYTES")) (snd raster_load)
           (st_trace (snd raster_load))).
  - vm_compute. reflexivity.
  - reflexivity.
  - vm_compute. left. reflexivity.
Defined.

Lemma load_non_error_status_parsed_witness :
  fst (load_data_from_url (demo_backend (serve 300 "a,b") []) None url_csv false
         None [] (empty_state work_cwd)) = Ok (LTable (PFrame (demo_table "a,b"))).
Proof.
  rewrite (load_non_error_status_parsed (demo_backend (serve 300 "a,b") []) None
             url_csv None [] (empty_state work_cwd) (PFrame (demo_table "a,b"))).
  - reflexivity.
  - left. vm_compute. reflexivity.
  - vm_compute. reflexivity.
  - vm_compute. reflexivity.
Defined.

Lemma load_zipped_missing_inner_path_witness :
  load_data_from_url (zip_backend raster_archive) None url_zip true None []
    (empty_state work_cwd)
  = (Err (ValueError msg_filepath), empty_state work_cwd).
Proof.
  apply (load_zipped_missing_inner_path _ _ _ _ _ raster_archive);
    vm_compute; reflexivity.
Defined.

Lemma load_unknown_csv_fallback_witness :
  fst (load_data_from_url (demo_backend (serve 200 "BAD") []) None url_bin false
         None [] (empty_state work_cwd)) = Err (ValueError msg_unsupported).
Proof.
  rewrite (load_unknown_csv_fallback (demo_backend (serve 200 "BAD") []) None
             url_bin None [] (empty_state work_cwd)).
  - vm_compute. reflexivity.
  - vm_compute. reflexivity.
  - vm_compute. reflexivity.
Defined.

Lemma lat_long_to_point_points_witness :
  exists pts,
    nth_error pts 0 = Some (Point (Fin (QArith_base.inject_Z (-118)))
                                  (Fin (QArith_base.inject_Z 34))) /\
    lat_long_to_point geo_backend (Some "EPSG:3857") wells_df "lat" "long"
    = Ok (mkGeoDataFrame wells_df pts (Some "EPSG:3857")).
Proof.
  destruct (lat_long_to_point_points geo_backend "EPSG:3857" wells_df "lat" "long"
              [CNum (Fin (QArith_base.inject_Z (-118)))]
              [CNum (Fin (QArith_base.inject_Z 34))]
              ltac:(reflexivity) ltac:(reflexivity)
              ltac:(intros x [<-|[]]; discriminate)
              ltac:(intros x [<-|[]]; discriminate))
    as [pts [_ [Hn [_ E]]]].
  exists pts. split.
  - destruct (Hn 0 _ _ eq_refl eq_refl) as [x [y [Hx [Hy Hp]]]].
    simpl in Hx, Hy. injection Hx as <-. injection Hy as <-. exact Hp.
  - rewrite E. simpl. rewrite map_id. reflexivity.
Defined.

Lemma saws_crs_unbound_witness :
  fst (load_data_from_url geo_backend module_saws_crs url_geojson false None []
         (empty_state work_cwd)) = Err (NameError "saws_crs").
Proof.
  apply (proj1 saws_crs_unbound geo_backend url_geojson None [] (empty_state work_cwd)
           (mkGeoDataFrame (demo_table "GEO") [] (Some "EPSG:4326")));
    vm_compute; reflexivity.
Defined.

Lemma load_zipped_txt_unknown_unbound_witness :
  load_data_from_url (zip_backend notes_archive) None url_zip true (Some "notes.txt")
    [] (empty_state work_cwd)
  = (Err (UnboundLocalError "data"), empty_state work_cwd).
Proof.
  apply (proj1 (load_zipped_txt_unknown_unbound (zip_backend notes_archive) None
                  url_zip "notes.txt" [] (empty_state work_cwd) notes_archive
                  ltac:(reflexivity) ltac:(reflexivity)
                  ltac:(left; vm_compute; reflexivity))
                (mkMember "notes.txt" "hello")).
  vm_compute. reflexivity.
Defined.

(* ------------------------------------------------------------------ *)
(** ** Further properties of [load_data_from_url] *)

(** A 4xx or 5xx response: [raise_for_status] raises [HTTPError] with the
    status and the response URL before anything is parsed or written, zipped
    or not. *)
Theorem load_http_error_status : forall B saws url zipped fp kw s,
  (400 <= status_code (http_get B url) < 600)%Z ->
  load_data_from_url B saws url zipped fp kw s
  = (Err (HTTPError (status_code (http_get B url)) (resp_url (http_get B url))), s).
Proof.
  intros B saws url zipped fp kw s [H1 H2].
  unfold load_data_from_url. unfold bind at 1.
  rewrite status_check_cases.
  assert (Hp : passes_status (status_code (http_get B url)) = false).
  { unfold passes_status.
    rewrite (proj2 (Z.eqb_neq _ _)) by lia.
    rewrite (proj2 (Z.leb_le _ _)) by lia.
    rewrite (proj2 (Z.ltb_lt _ _)) by lia. reflexivity. }
  rewrite Hp. reflexivity.
Qed.

(** A non-zipped load never touches the disk: whatever its outcome, the file
    system and the working directory are unchanged, and the only calls it
    makes are parser calls on the downloaded bytes. *)
Theorem load_nonzipped_no_disk : forall B saws url fp kw s r s',
  load_data_from_url B saws url false fp kw s = (r, s') ->
  st_fs s' = st_fs s /\ st_cwd s' = st_cwd s /\
  exists new, st_trace s' = st_trace s ++ new /\
    forall ev, In ev new -> exists p, ev = EParse p (SBuffer (content (http_get B url))).
Proof.
  intros B saws url fp kw s r s' H.
  unfold load_data_from_url in H. unfold bind at 1 in H.
  rewrite status_check_cases in H.
  destruct (passes_status (status_code (http_get B url))); simpl in H.
  - exact (nonzipped_branch_state _ _ _ _ _ _ _ _ H).
  - inversion H; subst. split; [reflexivity|]. split; [reflexivity|].
    exists []. rewrite app_nil_r. split; [reflexivity|intros ev []].
Qed.

(** A zipped csv member that opens and parses is read straight from the
    archive: the loader returns what [pd.read_csv] gave, makes that single
    parser call and extracts nothing, leaving the file system as it was. *)
Theorem load_zipped_csv_in_place : forall B saws url fp kw s z m t,
  passes_status (status_code (http_get B url)) = true ->
  open_zip B (content (http_get B url)) = Some z ->
  detect_file_type fp = FCsv ->
  zip_open z fp s = (Ok m, s) ->
  read_csv B (st_fs s) (SMember fp m) (low_memory kw) = Ok t ->
  load_data_from_url B saws url true (Some fp) kw s =
  (Ok (LTable t),
   mkState (st_fs s) (st_cwd s)
     (st_trace s ++ [EParse PReadCsv (SMember fp m)])).
Proof.
  intros B saws url fp kw s z m t Hs Hz Hft Hm Hr.
  rewrite load_zipped_unfold with (z := z) by assumption.
  assert (Hd : direct_block B z fp FCsv kw s =
    (Ok (Some (LTable t)),
     mkState (st_fs s) (st_cwd s) (st_trace s ++ [EParse PReadCsv (SMember fp m)]))).
  { unfold direct_block, bind at 1. rewrite Hm.
    destruct s as [f c tr]; simpl in Hr.
    unfold parse, emit, get, bind, ret; simpl. rewrite Hr. reflexivity. }
  unfold bind at 1, try_except at 1. rewrite Hft, Hd. reflexivity.
Qed.

(** csv and txt URLs are both read with [pd.read_csv]; unlike the
    unknown-format fallback, a parser error reaches the caller as it is. *)
Theorem load_csv_txt_url : forall B saws url fp kw s,
  passes_status (status_code (http_get B url)) = true ->
  detect_file_type url = FCsv \/ detect_file_type url = FTxt ->
  load_data_from_url B saws url false fp kw s =
  (match read_csv B (st_fs s) (SBuffer (content (http_get B url))) (low_memory kw) with
   | Ok d => Ok (LTable d)
   | Err e => Err e
   end,
   mkState (st_fs s) (st_cwd s)
     (st_trace s ++ [EParse PReadCsv (SBuffer (content (http_get B url)))])).
Proof.
  intros B saws url fp kw s Hs Hft.
  unfold load_data_from_url. unfold bind at 1.
  rewrite status_check_cases, Hs. simpl.
  destruct s as [f c tr].
  destruct Hft as [-> | ->]; unfold nonzipped_branch; unfold_monad; simpl;
    destruct (read_csv B f _ _); reflexivity.
Qed.

(* ------------------------------------------------------------------ *)
(** ** Files written *)

Lemma path_eqb_refl : forall p, path_eqb p p = true.
Proof.
  intros p. unfold path_eqb. destruct (list_eq_dec string_dec p p);
    [reflexivity|contradiction].
Qed.

Lemma lookup_write_same : forall t b f, lookup_file t (write_file t b f) = Some b.
Proof.
  intros t b f. unfold lookup_file, write_file. simpl. rewrite path_eqb_refl.
  reflexivity.
Qed.

(* ------------------------------------------------------------------ *)
(** ** Missing columns in [lat_long_to_point] *)

Lemma df_column_missing : forall df col,
  ~ In col (df_columns df) -> df_column df col = Err (KeyError col).
Proof.
  intros df col Hcol. unfold df_column.
  assert (Hnil : forall l : list (nat * string),
            (forall x, In x l -> In (snd x) (df_columns df)) ->
            filter (fun ic => String.eqb (snd ic) col) l = []).
  { induction l as [|x l IH]; intros Hl; [reflexivity|]. simpl.
    destruct (String.eqb (snd x) col) eqn:E.
    - apply String.eqb_eq in E. exfalso. apply Hcol. rewrite <- E.
      apply Hl. left; reflexivity.
    - apply IH. intros y Hy. apply Hl. right; exact Hy. }
  rewrite Hnil; [reflexivity|].
  intros [i c] Hx. exact (in_combine_r _ _ _ _ Hx).
Qed.

(** [zip(df[long_col], df[lat_col])] looks the longitude column up first: a
    missing longitude column raises [KeyError] for it, and a missing latitude
    column (the longitude one present) raises [KeyError] for the latitude
    column; the lookups come before the reprojection, so this holds whether
    [saws_crs] is bound or not. *)
Theorem lat_long_to_point_missing_column : forall B saws df lat_col long_col,
  (~ In long_col (df_columns df) ->
   lat_long_to_point B saws df lat_col long_col = Err (KeyError long_col)) /\
  (forall lons, df_column df long_col = Ok lons ->
   ~ In lat_col (df_columns df) ->
   lat_long_to_point B saws df lat_col long_col = Err (KeyError lat_col)).
Proof.
  intros B saws df lat_col long_col. split.
  - intros H. unfold lat_long_to_point. rewrite df_column_missing by exact H.
    reflexivity.
  - intros lons Hl H. unfold lat_long_to_point.
    rewrite Hl, df_column_missing by exact H. reflexivity.
Qed.

(* ------------------------------------------------------------------ *)
(** ** The format comes from the last path component *)

Lemma lower_append : forall a b,
  lower (String.append a b) = String.append (lower a) (lower b).
Proof. induction a as [|c a IH]; intros b; simpl; [reflexivity|rewrite IH; reflexivity]. Qed.

Lemma lower_char_slash : forall c, lower_char c = "/"%char -> c = "/"%char.
Proof.
  intros c. destruct c as [[] [] [] [] [] [] [] []]; intros H;
    vm_compute in H; first [reflexivity | discriminate H].
Qed.

Lemma list_ascii_append : forall a b,
  list_ascii_of_string (String.append a b) =
  list_ascii_of_string a ++ list_ascii_of_string b.
Proof. induction a as [|c a IH]; intros b; simpl; [reflexivity|rewrite IH; reflexivity]. Qed.

Lemma no_slash_lower : forall n, no_slash n -> no_slash (lower n).
Proof.
  unfold no_slash. induction n as [|c n IH]; simpl; intros H Hin; [exact Hin|].
  destruct Hin as [Hc|Hin].
  - apply H. left. apply lower_char_slash. exact Hc.
  - apply (IH (fun h => H (or_intror h)) Hin).
Qed.

Lemma ext_scan_app : forall l acc r,
  ~ In "/"%char l ->
  ext_scan acc (l ++ "/"%char :: r) =
  match ext_scan acc l with
  | Some (e, r') => Some (e, r' ++ "/"%char :: r)
  | None => None
  end.
Proof.
  induction l as [|c l IH]; intros acc r H; [reflexivity|]. simpl.
  destruct (Ascii.eqb c ".") eqn:Ed; [reflexivity|].
  destruct (Ascii.eqb c "/") eqn:Es.
  - apply Ascii.eqb_eq in Es. subst c. exfalso. apply H. left; reflexivity.
  - apply IH. intros Hin. apply H. right; exact Hin.
Qed.

Lemma ext_scan_rest : forall l acc e r',
  ext_scan acc l = Some (e, r') -> ~ In "/"%char l -> ~ In "/"%char r'.
Proof.
  induction l as [|c l IH]; intros acc e r' H Hl; [discriminate H|]. simpl in H.
  destruct (Ascii.eqb c ".").
  - injection H as _ <-. intros Hin. apply Hl. right; exact Hin.
  - destruct (Ascii.eqb c "/"); [discriminate H|].
    apply (IH _ _ _ H). intros Hin. apply Hl. right; exact Hin.
Qed.

Lemma stem_app : forall r x,
  ~ In "/"%char r -> stem_has_non_dot (r ++ "/"%char :: x) = stem_has_non_dot r.
Proof.
  induction r as [|c r IH]; intros x H; [reflexivity|]. simpl.
  destruct (Ascii.eqb c "/") eqn:Es.
  - apply Ascii.eqb_eq in Es. subst c. exfalso. apply H. left; reflexivity.
  - destruct (Ascii.eqb c "."); [|reflexivity].
    apply IH. intros Hin. apply H. right; exact Hin.
Qed.

(** Only the text after the last ['/'] decides the format: a dot in a host
    name or in a directory name never does. *)
Theorem detect_file_type_last_component : forall d n,
  no_slash n ->
  detect_file_type (String.append d (String "/" n)) = detect_file_type n.
Proof.
  intros d n Hn. unfold detect_file_type, splitext_ext.
  rewrite lower_append. simpl lower.
  replace (lower_char "/") with "/"%char by reflexivity.
  assert (Hr : rev (list_ascii_of_string (String.append (lower d) (String "/" (lower n))))
               = rev (list_ascii_of_string (lower n)) ++
                 "/"%char :: rev (list_ascii_of_string (lower d))).
  { rewrite list_ascii_append. simpl. rewrite rev_app_distr. simpl.
    rewrite <- app_assoc. reflexivity. }
  rewrite Hr.
  assert (Hl : ~ In "/"%char (rev (list_ascii_of_string (lower n)))).
  { intros Hin. apply in_rev in Hin. exact (no_slash_lower n Hn Hin). }
  rewrite (ext_scan_app _ _ _ Hl).
  destruct (ext_scan [] (rev (list_ascii_of_string (lower n)))) as [[e r']|] eqn:E;
    [|reflexivity].
  rewrite stem_app by exact (ext_scan_rest _ _ _ _ E Hl). reflexivity.
Qed.

(* ------------------------------------------------------------------ *)
(** ** The module-level script *)

Lemma compare_series_num : forall op cs,
  Forall (fun c => cell_is_num c = true) cs ->
  compare_series op cs = Ok (map (cell_test op) cs).
Proof.
  intros op cs H. induction H as [|c cs Hc Hcs IH]; [reflexivity|].
  destruct c as [[q|]|t]; simpl; try rewrite IH; try reflexivity.
  discriminate Hc.
Qed.

Lemma mask_rows_map : forall {A C} (g : A -> C) rows m,
  mask_rows (map g rows) m = map g (mask_rows rows m).
Proof.
  intros A C g. induction rows as [|r rs IH]; intros [|b bs]; simpl; try reflexivity.
  destruct b; simpl; rewrite IH; reflexivity.
Qed.

Lemma df_column_select : forall df col cs m,
  df_column df col = Ok cs -> df_column (select_rows df m) col = Ok (mask_rows cs m).
Proof.
  intros df col cs m H. unfold df_column, select_rows in *. simpl.
  destruct (filter _ _) as [|[i c] [|? ?]]; try discriminate H.
  injection H as <-. rewrite mask_rows_map. reflexivity.
Qed.

Lemma Forall_mask_rows : forall {A} (P : A -> Prop) l m,
  Forall P l -> Forall P (mask_rows l m).
Proof.
  intros A P l. induction l as [|a l IH]; intros [|b bs] H; simpl; try constructor.
  inversion H; subst. destruct b; [constructor; auto|auto].
Qed.

Lemma length_mask_rows : forall {A C} (rows : list A) (cs : list C) f,
  length rows = length cs -> length (mask_rows rows (map f cs)) = count f cs.
Proof.
  intros A C rows. unfold count. induction rows as [|r rs IH]; intros [|c cs] f H;
    simpl in *; try discriminate H; try reflexivity.
  destruct (f c); simpl; rewrite IH by congruence; reflexivity.
Qed.

Lemma mask_rows_combine : forall {A C} (xs : list A) (ys : list C) f,
  length xs = length ys ->
  mask_rows ys (map f xs) = map snd (filter (fun p => f (fst p)) (combine xs ys)).
Proof.
  intros A C xs. induction xs as [|x xs IH]; intros [|y ys] f H; simpl in *;
    try discriminate H; try reflexivity.
  destruct (f x); simpl; rewrite IH by congruence; reflexivity.
Qed.

Lemma count_map_snd_filter : forall {A C} (g : A * C -> bool) (h : C -> bool) l,
  count h (map snd (filter g l)) = count (fun p => g p && h (snd p)) l.
Proof.
  intros A C g h l. unfold count. induction l as [|p l IH]; [reflexivity|]. simpl.
  destruct (g p); simpl; [destruct (h (snd p)); simpl; rewrite IH|exact IH];
    reflexivity.
Qed.

Lemma count_combine_fst : forall {A C} (xs : list A) (ys : list C) f,
  length xs = length ys ->
  count (fun p => f (fst p)) (combine xs ys) = count f xs.
Proof.
  intros A C xs. unfold count. induction xs as [|x xs IH]; intros [|y ys] f H;
    simpl in *; try discriminate H; try reflexivity.
  destruct (f x); simpl; rewrite IH by congruence; reflexivity.
Qed.

Lemma count_split_cells : forall op cs,
  Forall (fun c => cell_is_num c = true) cs ->
  length cs = count (cell_test op) cs + count (cell_test (fun q => negb (op q))) cs
              + count cell_is_nan cs.
Proof.
  intros op cs H. unfold count. induction H as [|c cs Hc Hcs IH]; [reflexivity|].
  destruct c as [[q|]|t]; simpl; [destruct (op q); simpl; lia|lia|discriminate Hc].
Qed.

Lemma count_split_pairs : forall {A} (g : A -> bool) op (l : list (A * cell)),
  Forall (fun p => cell_is_num (snd p) = true) l ->
  count (fun p => g (fst p)) l =
  count (fun p => g (fst p) && cell_test op (snd p)) l +
  count (fun p => g (fst p) && cell_test (fun q => negb (op q)) (snd p)) l +
  count (fun p => g (fst p) && cell_is_nan (snd p)) l.
Proof.
  intros A g op l H. unfold count. induction H as [|[a c] l Hc Hl IH]; [reflexivity|].
  simpl in *. destruct (g a); simpl;
    [destruct c as [[q|]|t]; simpl; [destruct (op q); simpl; lia|lia|discriminate Hc]|lia].
Qed.

Lemma Forall_combine_snd : forall {A C} (P : C -> Prop) (xs : list A) (ys : list C),
  Forall P ys -> Forall (fun p => P (snd p)) (combine xs ys).
Proof.
  intros A C P xs ys H. apply Forall_forall. intros [x y] Hin. simpl.
  rewrite Forall_forall in H. apply H. exact (in_combine_r _ _ _ _ Hin).
Qed.

(** What the script prints when the load returns a table whose [TDS_mgL]
    and [charge_balance_eq] columns hold numbers: the head, the row count,
    the rows with TDS >= 1000, and as "excluded (TDS < 1000 mg/L)" the rows
    below 1000 together with the rows whose TDS is [nan]; then, among the
    kept rows, those with a charge balance below 0.1, and as "excluded
    (charge_balance_eq >= 0.1)" those at or above 0.1 together with those
    whose charge balance is [nan]. *)
Theorem script_row_counts : forall B saws csv_text ss s1 df tds cbs,
  load_data_from_url B saws data_url true (Some ions_member) [] (ss_st ss)
    = (Ok (LTable (PFrame df)), s1) ->
  fst (to_csv csv_text (head df) head_file s1) = Ok tt ->
  df_column df "TDS_mgL" = Ok tds ->
  df_column df "charge_balance_eq" = Ok cbs ->
  Forall (fun c => cell_is_num c = true) tds ->
  Forall (fun c => cell_is_num c = true) cbs ->
  exists ss',
    run_script B saws csv_text ss = (Ok tt, ss') /\
    ss_out ss' = ss_out ss ++
      [OFrame (head df);
       OLine msg_total (Z.of_nat (length (df_rows df)));
       OLine msg_filtered (Z.of_nat (count (cell_test ge_1000) tds));
       OLine msg_excluded
         (Z.of_nat (count (cell_test (fun q => negb (ge_1000 q))) tds
                    + count cell_is_nan tds));
       OLine msg_filtered2
         (Z.of_nat (count (fun p => cell_test ge_1000 (fst p) &&
                                    cell_test lt_0_1 (snd p)) (combine tds cbs)));
       OLine msg_excluded2
         (Z.of_nat (count (fun p => cell_test ge_1000 (fst p) &&
                                    cell_test (fun q => negb (lt_0_1 q)) (snd p))
                          (combine tds cbs)
                    + count (fun p => cell_test ge_1000 (fst p) &&
                                      cell_is_nan (snd p)) (combine tds cbs)))].
Proof.
  intros B saws csv_text ss s1 df tds cbs Hload Hw Htds Hcbs Ntds Ncbs.
  destruct (to_csv csv_text (head df) head_file s1) as [[[]|e] s2] eqn:Ew;
    [|discriminate Hw].
  assert (Lt : length tds = length (df_rows df)) by exact (df_column_length _ _ _ Htds).
  assert (Lc : length cbs = length (df_rows df)) by exact (df_column_length _ _ _ Hcbs).
  set (m1 := map (cell_test ge_1000) tds).
  assert (Hcb1 : df_column (select_rows df m1) "charge_balance_eq" = Ok (mask_rows cbs m1))
    by exact (df_column_select _ _ _ _ Hcbs).
  set (cb1 := mask_rows cbs m1) in *.
  assert (Ncb1 : Forall (fun c => cell_is_num c = true) cb1) by (apply Forall_mask_rows; exact Ncbs).
  set (m2 := map (cell_test lt_0_1) cb1).
  assert (Hn1 : length (mask_rows (df_rows df) m1) = count (cell_test ge_1000) tds)
    by (apply length_mask_rows; congruence).
  assert (Hcb1' : cb1 = map snd (filter (fun p => cell_test ge_1000 (fst p)) (combine tds cbs)))
    by (apply mask_rows_combine; congruence).
  assert (Lcb1 : length cb1 = count (cell_test ge_1000) tds).
  { unfold cb1, m1. rewrite mask_rows_combine by congruence. rewrite length_map.
    rewrite <- (count_combine_fst tds cbs) by congruence. reflexivity. }
  assert (Hn2 : length (mask_rows (mask_rows (df_rows df) m1) m2) =
                count (fun p => cell_test ge_1000 (fst p) && cell_test lt_0_1 (snd p))
                      (combine tds cbs)).
  { unfold m2. rewrite length_mask_rows by congruence.
    rewrite Hcb1'. apply count_map_snd_filter. }
  assert (Hs1 := count_split_cells ge_1000 tds Ntds).
  assert (Hs2 := count_split_pairs (cell_test ge_1000) lt_0_1 (combine tds cbs)
                   (Forall_combine_snd _ tds cbs Ncbs)).
  rewrite (count_combine_fst tds cbs) in Hs2 by congruence.
  unfold run_script, sbind, run_m, slift, print.
  rewrite Hload. cbv beta iota zeta delta [frame_of ss_st ss_out].
  rewrite Ew. simpl.
  rewrite Htds, (compare_series_num _ _ Ntds). fold m1.
  unfold select_rows in *. simpl df_rows in *.
  rewrite Hcb1, (compare_series_num _ _ Ncb1). fold m2.
  eexists. split; [reflexivity|]. simpl.
  rewrite <- !app_assoc. simpl.
  rewrite Hn1, Hn2.
  repeat f_equal; lia.
Qed.

(** A load never changes the working directory. *)
Lemma load_keeps_cwd : forall B saws url zipped fp kw s r s',
  load_data_from_url B saws url zipped fp kw s = (r, s') -> st_cwd s' = st_cwd s.
Proof.
  intros B saws url zipped fp kw s r s' H.
  unfold load_data_from_url in H. unfold bind at 1 in H.
  rewrite status_check_cases in H.
  destruct (passes_status (status_code (http_get B url))); simpl in H;
    [|inversion H; reflexivity].
  destruct zipped; simpl in H.
  - unfold bind at 1 in H.
    destruct (open_zip B (content (http_get B url))) as [z|]; simpl in H;
      [|inversion H; reflexivity].
    destruct fp as [fp|]; simpl in H; [|inversion H; reflexivity].
    unfold bind at 1, try_except at 1 in H.
    destruct (direct_block B z fp (detect_file_type fp) kw s) as [r1 s1] eqn:Hd.
    destruct (direct_block_state _ _ _ _ _ _ _ _ Hd) as [_ [Hc1 _]].
    destruct r1 as [d|e].
    + destruct d as [d|]; simpl in H; inversion H; subst; exact Hc1.
    + destruct (extraction_fallback B saws z fp (detect_file_type fp) kw s1)
        as [r2 s2] eqn:Hf.
      assert (Hc2 := fallback_cwd _ _ _ _ _ _ _ _ _ Hf).
      destruct r2 as [[d|]|e']; simpl in H; inversion H; subst; congruence.
  - exact (proj1 (proj2 (nonzipped_branch_state _ _ _ _ _ _ _ _ H))).
Qed.

(** A successful [to_csv] has written the text to the resolved path. *)
Lemma to_csv_ok : forall csv_text d path s s',
  to_csv csv_text d path s = (Ok tt, s') ->
  st_fs s' = write_file (resolve (st_cwd s) path) (csv_text d) (st_fs s) /\
  st_cwd s' = st_cwd s.
Proof.
  intros csv_text d path [f c t] s' H.
  unfold to_csv, os_write in H. unfold_monad. simpl in H.
  destruct (path_isdir _ _); [|discriminate H].
  destruct (stat _ _); try discriminate H;
    destruct (writable _ _); try discriminate H; injection H as <-; auto.
Qed.

(** Once the load returns a table, the script prints its first five rows and
    then saves them with [to_csv] to [data_head.csv] in the working
    directory, before any filtering.  If [to_csv] raises, the script stops
    with that error after the print.  If it succeeds, the file is there
    whatever happens next, and a table without a [TDS_mgL] column makes the
    script stop with [KeyError] right after. *)
Theorem script_writes_head_file : forall B saws csv_text ss s1 df r ss',
  load_data_from_url B saws data_url true (Some ions_member) [] (ss_st ss)
    = (Ok (LTable (PFrame df)), s1) ->
  run_script B saws csv_text ss = (r, ss') ->
  (exists rest, ss_out ss' = ss_out ss ++ OFrame (head df) :: rest) /\
  (forall e s2, to_csv csv_text (head df) head_file s1 = (Err e, s2) ->
     r = Err e /\ ss' = mkSState s2 (ss_out ss ++ [OFrame (head df)])) /\
  (forall s2, to_csv csv_text (head df) head_file s1 = (Ok tt, s2) ->
     lookup_file (resolve (st_cwd (ss_st ss)) head_file) (st_fs (ss_st ss'))
       = Some (csv_text (head df)) /\
     (~ In "TDS_mgL" (df_columns df) ->
      r = Err (KeyError "TDS_mgL") /\ ss_out ss' = ss_out ss ++ [OFrame (head df)])).
Proof.
  intros B saws csv_text ss s1 df r ss' Hload H.
  assert (Hc := load_keeps_cwd _ _ _ _ _ _ _ _ _ Hload).
  unfold run_script, sbind, run_m, slift, print in H.
  rewrite Hload in H. cbv beta iota zeta delta [frame_of ss_st ss_out] in H.
  destruct (to_csv csv_text (head df) head_file s1) as [[[]|e] s2] eqn:Ew.
  2:{ injection H as <- <-. split; [exists []; reflexivity|]. split.
      - intros e' s2' Hw. injection Hw as <- <-. split; reflexivity.
      - intros s2' Hw. discriminate Hw. }
  destruct (to_csv_ok _ _ _ _ _ Ew) as [Hf2 _].
  assert (Hlk : lookup_file (resolve (st_cwd (ss_st ss)) head_file) (st_fs s2)
                = Some (csv_text (head df))).
  { rewrite Hf2, Hc. apply lookup_write_same. }
  assert (Hmain : ss_st ss' = s2 /\
    (exists rest, ss_out ss' = ss_out ss ++ OFrame (head df) :: rest) /\
    (~ In "TDS_mgL" (df_columns df) ->
     r = Err (KeyError "TDS_mgL") /\ ss_out ss' = ss_out ss ++ [OFrame (head df)])).
  { simpl in H.
    destruct (df_column df "TDS_mgL") as [tds|e] eqn:Htds; simpl in H.
    - destruct (compare_series ge_1000 tds) as [m1|e] eqn:Hm1; simpl in H.
      + destruct (df_column _ "charge_balance_eq") as [cb|e] eqn:Hcb; simpl in H.
        * destruct (compare_series lt_0_1 cb) as [m2|e] eqn:Hm2; simpl in H;
            inversion H; subst; simpl;
            (split; [reflexivity|]); rewrite <- !app_assoc;
            (split; [eexists; reflexivity|]);
            intros Hn; rewrite df_column_missing in Htds by exact Hn; discriminate Htds.
        * inversion H; subst; simpl;
            (split; [reflexivity|]); rewrite <- !app_assoc;
            (split; [eexists; reflexivity|]);
            intros Hn; rewrite df_column_missing in Htds by exact Hn; discriminate Htds.
      + inversion H; subst; simpl;
          (split; [reflexivity|]);
          (split; [eexists; reflexivity|]);
          intros Hn; rewrite df_column_missing in Htds by exact Hn; discriminate Htds.
    - inversion H; subst; simpl.
      split; [reflexivity|]. split; [eexists; reflexivity|].
      intros Hn. rewrite df_column_missing in Htds by exact Hn.
      injection Htds as ->. split; reflexivity. }
  destruct Hmain as [Hst [Hrest Hkey]].
  split; [exact Hrest|]. split.
  - intros e s2' Hw. discriminate Hw.
  - intros s2' Hw. injection Hw as <-. rewrite Hst. split; [exact Hlk|exact Hkey].
Qed.

(* ------------------------------------------------------------------ *)
(** ** Instances of the further properties *)

Lemma load_http_error_status_witness :
  load_data_from_url (demo_backend (serve 404 "") []) None url_csv false None []
    (empty_state work_cwd)
  = (Err (HTTPError 404 url_csv), empty_state work_cwd).
Proof.
  exact (load_http_error_status (demo_backend (serve 404 "") []) None url_csv false
           None [] (empty_state work_cwd) ltac:(simpl; lia)).
Defined.

Lemma load_nonzipped_no_disk_witness :
  st_fs (snd (load_data_from_url (demo_backend (serve 200 "a,b") []) None url_csv
                false None [] (empty_state work_cwd)))
  = st_fs (empty_state work_cwd).
Proof.
  exact (proj1 (load_nonzipped_no_disk (demo_backend (serve 200 "a,b") []) None
                  url_csv None [] (empty_state work_cwd) _ _ (surjective_pairing _))).
Defined.

Lemma load_zipped_csv_in_place_witness :
  load_data_from_url (zip_backend ions_archive) None url_zip true (Some "Major_Ions.csv")
    [] (empty_state work_cwd)
  = (Ok (LTable (PFrame (demo_table "TDS_mgL"))),
     mkState (st_fs (empty_state work_cwd)) work_cwd
       ([] ++ [EParse PReadCsv
                (SMember "Major_Ions.csv" (mkMember "Major_Ions.csv" "TDS_mgL"))])).
Proof.
  exact (load_zipped_csv_in_place (zip_backend ions_archive) None url_zip
           "Major_Ions.csv" [] (empty_state work_cwd) ions_archive
           (mkMember "Major_Ions.csv" "TDS_mgL") (PFrame (demo_table "TDS_mgL"))
           ltac:(vm_compute; reflexivity) ltac:(vm_compute; reflexivity)
           ltac:(vm_compute; reflexivity) ltac:(vm_compute; reflexivity)
           ltac:(vm_compute; reflexivity)).
Defined.

Lemma load_csv_txt_url_witness :
  fst (load_data_from_url (demo_backend (serve 200 "BAD") []) None url_txt false None
         [] (empty_state work_cwd)) = Err (LibraryError "ParserError").
Proof.
  rewrite (load_csv_txt_url (demo_backend (serve 200 "BAD") []) None url_txt None []
             (empty_state work_cwd)).
  - vm_compute. reflexivity.
  - vm_compute. reflexivity.
  - right. vm_compute. reflexivity.
Defined.

Lemma lat_long_to_point_missing_column_witness :
  lat_long_to_point geo_backend None wells_df "lat" "lon" = Err (KeyError "lon").
Proof.
  apply (proj1 (lat_long_to_point_missing_column geo_backend None wells_df "lat" "lon")).
  simpl. intuition discriminate.
Defined.

Lemma detect_file_type_last_component_witness :
  detect_file_type (String.append "https://example.org/data.csv" (String "/" "download"))
  = detect_file_type "download".
Proof.
  apply detect_file_type_last_component. unfold no_slash. simpl.
  intuition discriminate.
Defined.

Lemma script_row_counts_witness :
  exists ss',
    run_script ions_backend None ions_csv_text script_start = (Ok tt, ss') /\
    ss_out ss' = [OFrame (head ions_table);
                  OLine msg_total 5; OLine msg_filtered 3; OLine msg_excluded 2;
                  OLine msg_filtered2 1; OLine msg_excluded2 2].
Proof.
  destruct (script_row_counts ions_backend None ions_csv_text script_start
              (snd (load_data_from_url ions_backend None data_url true (Some ions_member)
                      [] (ss_st script_start)))
              ions_table
              [q_of 1200; q_of 800; CNum NaN; q_of 1500; q_of 2000]
              [CNum (Fin (QArith_base.Qmake 1%Z 20%positive)); q_of 0; q_of 0; CNum NaN;
               CNum (Fin (QArith_base.Qmake 1%Z 5%positive))]
              ltac:(vm_compute; reflexivity) ltac:(vm_compute; reflexivity)
              ltac:(vm_compute; reflexivity) ltac:(vm_compute; reflexivity)
              ltac:(repeat constructor) ltac:(repeat constructor))
    as [ss' [Hr Ho]].
  exists ss'. split; [exact Hr|]. rewrite Ho. vm_compute. reflexivity.
Defined.

Lemma script_writes_head_file_witness :
  fst (run_script (zip_backend ions_archive) None ions_csv_text script_start)
  = Err (KeyError "TDS_mgL") /\
  lookup_file ["home"; "work"; "data_head.csv"]
    (st_fs (ss_st (snd (run_script (zip_backend ions_archive) None ions_csv_text
                          script_start))))
  = Some (ions_csv_text (head (demo_table "TDS_mgL"))).
Proof.
  destruct (script_writes_head_file (zip_backend ions_archive) None ions_csv_text
              script_start
              (snd (load_data_from_url (zip_backend ions_archive) None data_url true
                      (Some ions_member) [] (ss_st script_start)))
              (demo_table "TDS_mgL") _ _
              ltac:(vm_compute; reflexivity) (surjective_pairing _))
    as [_ [_ Hok]].
  destruct (Hok (snd (to_csv ions_csv_text (head (demo_table "TDS_mgL")) head_file
                       (snd (load_data_from_url (zip_backend ions_archive) None data_url
                               true (Some ions_member) [] (ss_st script_start)))))
                ltac:(vm_compute; reflexivity))
    as [Hf Hk].
  split.
  - apply (proj1 (Hk ltac:(simpl; intuition discriminate))).
  - exact Hf.
Defined.
